(** * rust-cassowary: credential verification, range responses and the prefetch queue

    A shallow embedding of the music-streaming server of rust-cassowary:
    - [src/auth/mod.rs]: [verify_supabase_token], [decode_and_validate_token];
    - [src/auth/middleware.rs]: [require_auth];
    - [src/lib.rs]: the routed handlers of [create_app] ([stream_track],
      [prefetch_tracks], [user_info]);
    - [src/main.rs]: the binary's own handlers ([stream_track] with range
      support, [prefetch_tracks] with its queue, [user_info]) and the
      background worker [prefetch_task].

    Rust [u64]/[usize] values are [Z] with their bounds written out; header
    values and paths are [string]s; response bodies are [list Byte.byte]. *)

From Stdlib Require Import ZArith List String Ascii Bool Lia.
From Stdlib Require Import Numbers.DecimalString.
Import ListNotations.
Open Scope string_scope.
Open Scope Z_scope.
Set Warnings "-register-all".

(** ** The error channels of the code *)

(** Rust's [Result]. *)
Inductive result (A E : Type) : Type :=
| Ok (a : A)
| Err (e : E).
Arguments Ok {A E} a.
Arguments Err {A E} e.

(** Evaluation that may panic ([u64] overflow checks of a debug build). *)
Inductive outcome (A : Type) : Type :=
| Done (a : A)
| Panic (msg : string).
Arguments Done {A} a.
Arguments Panic {A} msg.

Definition obind {A B} (m : outcome A) (k : A -> outcome B) : outcome B :=
  match m with
  | Done a => k a
  | Panic msg => Panic msg
  end.

Notation "x <- m ;; k" := (obind m (fun x => k))
  (at level 61, m at next level, right associativity).

(** ** Machine integers *)

Definition u64_max : Z := 2 ^ 64 - 1.
(** [usize] on the 64-bit targets the server runs on. *)
Definition usize_max : Z := u64_max.

(** Release builds wrap, debug builds panic on overflow. *)
Inductive build := Debug | Release.

Definition u64_sub (b : build) (x y : Z) : outcome Z :=
  match b with
  | Debug => if x <? y then Panic "attempt to subtract with overflow"
             else Done (x - y)
  | Release => Done ((x - y) mod 2 ^ 64)
  end.

Definition u64_add (b : build) (x y : Z) : outcome Z :=
  match b with
  | Debug => if u64_max <? x + y then Panic "attempt to add with overflow"
             else Done (x + y)
  | Release => Done ((x + y) mod 2 ^ 64)
  end.

(** [format!("{}", n)] for a non-negative integer. *)
Definition fmt_int (n : Z) : string :=
  NilEmpty.string_of_uint (N.to_uint (Z.to_N n)).

(** ** Strings *)

Fixpoint starts_with (p s : string) : bool :=
  match p, s with
  | EmptyString, _ => true
  | String c p', String d s' => Ascii.eqb c d && starts_with p' s'
  | String _ _, EmptyString => false
  end.

Definition is_empty (s : string) : bool :=
  match s with EmptyString => true | _ => false end.

(** [HeaderValue::to_str] succeeds iff every byte is visible ASCII
    (32 <= b < 127) or a tab. *)
Definition visible_ascii_char (c : ascii) : bool :=
  let n := nat_of_ascii c in
  ((32 <=? n)%nat && (n <? 127)%nat) || (n =? 9)%nat.

Fixpoint visible_ascii (s : string) : bool :=
  match s with
  | EmptyString => true
  | String c s' => visible_ascii_char c && visible_ascii s'
  end.

Definition header_to_str (v : string) : option string :=
  if visible_ascii v then Some v else None.

(** ** Header maps

    A [HeaderMap] as an association list; header names are stored
    lower-cased (as [HeaderName] normalises them), and [get] returns the
    first value stored under the name. *)
Definition HeaderMap := list (string * string).

Fixpoint hm_get (name : string) (h : HeaderMap) : option string :=
  match h with
  | [] => None
  | (k, v) :: h' => if String.eqb k name then Some v else hm_get name h'
  end.

(** ** JSON values (numbers are the integers a JWT payload carries) *)
Inductive json : Type :=
| JNull
| JBool (b : bool)
| JNum (n : Z)
| JStr (s : string)
| JArr (xs : list json)
| JObj (fields : list (string * json)).

Fixpoint jfield_all (k : string) (fs : list (string * json)) : list json :=
  match fs with
  | [] => []
  | (k', v) :: fs' =>
      if String.eqb k k' then v :: jfield_all k fs' else jfield_all k fs'
  end.

(** ** Serde's derived [Deserialize] for struct fields

    A missing [String]/[usize] field is an error, a missing [Option] field
    is [None]; a duplicated field is an error; unknown fields are skipped. *)
Inductive de_error := MissingField (f : string) | DuplicateField (f : string)
                    | InvalidType (f : string).

Definition de_string (f : string) (fs : list (string * json))
  : result string de_error :=
  match jfield_all f fs with
  | [] => Err (MissingField f)
  | [JStr s] => Ok s
  | [_] => Err (InvalidType f)
  | _ => Err (DuplicateField f)
  end.

Definition de_opt_string (f : string) (fs : list (string * json))
  : result (option string) de_error :=
  match jfield_all f fs with
  | [] => Ok None
  | [JNull] => Ok None
  | [JStr s] => Ok (Some s)
  | [_] => Err (InvalidType f)
  | _ => Err (DuplicateField f)
  end.

Definition de_usize (f : string) (fs : list (string * json))
  : result Z de_error :=
  match jfield_all f fs with
  | [] => Err (MissingField f)
  | [JNum n] => if (0 <=? n) && (n <=? usize_max) then Ok n
                else Err (InvalidType f)
  | [_] => Err (InvalidType f)
  | _ => Err (DuplicateField f)
  end.

Definition rbind {A B E} (m : result A E) (k : A -> result B E) : result B E :=
  match m with Ok a => k a | Err e => Err e end.

Notation "x <-? m ;; k" := (rbind m (fun x => k))
  (at level 61, m at next level, right associativity).

(** ** Credential verification ([src/auth/mod.rs]) *)

(** HTTP status codes. *)
Definition StatusCode := Z.
Definition OK : StatusCode := 200.
Definition PARTIAL_CONTENT : StatusCode := 206.
Definition BAD_REQUEST : StatusCode := 400.
Definition UNAUTHORIZED : StatusCode := 401.
Definition NOT_FOUND : StatusCode := 404.
Definition PAYLOAD_TOO_LARGE : StatusCode := 413.
Definition UNSUPPORTED_MEDIA_TYPE : StatusCode := 415.
Definition INTERNAL_SERVER_ERROR : StatusCode := 500.

(** [struct Claims]. *)
Record Claims := mkClaims {
  sub : string;
  email : option string;
  role : option string;
  exp : Z;
  aud : option string;
  iss : option string
}.

(** [#[derive(Deserialize)]] of [Claims] on a JSON payload. *)
Definition deserialize_claims (p : json) : result Claims de_error :=
  match p with
  | JObj fs =>
      s <-? de_string "sub" fs ;;
      e <-? de_opt_string "email" fs ;;
      r <-? de_opt_string "role" fs ;;
      x <-? de_usize "exp" fs ;;
      a <-? de_opt_string "aud" fs ;;
      i <-? de_opt_string "iss" fs ;;
      Ok (mkClaims s e r x a i)
  | _ => Err (InvalidType "Claims")
  end.

Inductive Algorithm := HS256 | HS384 | HS512 | RS256.

(** The fields of [jsonwebtoken::Validation] that the code sets or that
    the checks below read ([validate_nbf] is off and [sub] and [iss] are
    unset in [Validation::new], so those checks never fire). *)
Record Validation := mkValidation {
  algorithms : list Algorithm;
  validate_exp : bool;
  leeway : Z;
  required_spec_claims : list string;
  validate_aud : bool;
  aud_expected : option (list string)
}.

(** [Validation::new(alg)]: [exp] required and validated, leeway 60 s,
    [validate_aud = true] with no audience configured. *)
Definition validation_new (alg : Algorithm) : Validation :=
  mkValidation [alg] true 60 ["exp"] true None.

(** The validation that [decode_and_validate_token] builds:
    [validate_exp = true] and [required_spec_claims.clear()]; the
    audience settings are those of [Validation::new]. *)
Definition supabase_validation : Validation :=
  let v := validation_new HS256 in
  mkValidation (algorithms v) true (leeway v) [] (validate_aud v) (aud_expected v).

(** A registered claim as [jsonwebtoken] reads it: [exp] parses as a
    [u64]; the string claims parse as strings. *)
Definition claim_parsed (name : string) (fs : list (string * json)) : option json :=
  match jfield_all name fs with
  | JNum n :: _ => if String.eqb name "exp" then
                     if (0 <=? n) && (n <=? u64_max) then Some (JNum n) else None
                   else None
  | JStr s :: _ => if String.eqb name "exp" then None else Some (JStr s)
  | _ => None
  end.

(** The [aud] claim as [jsonwebtoken] reads it ([TryParse<Audience>],
    [Audience] being an untagged string or set of strings): absent or
    [null] is not present; a value of another type failed to parse. *)
Inductive AudClaim :=
| AudSingle (a : string)
| AudMultiple (l : list string)
| AudNotPresent
| AudFailed.

Fixpoint json_strings (l : list json) : option (list string) :=
  match l with
  | [] => Some []
  | JStr x :: l' => option_map (cons x) (json_strings l')
  | _ :: _ => None
  end.

Definition aud_claim (fs : list (string * json)) : AudClaim :=
  match jfield_all "aud" fs with
  | [] => AudNotPresent
  | JNull :: _ => AudNotPresent
  | JStr a :: _ => AudSingle a
  | JArr l :: _ => match json_strings l with
                   | Some ss => AudMultiple ss
                   | None => AudFailed
                   end
  | _ => AudFailed
  end.

(** The audience part of [jsonwebtoken]'s [validate]: with [validate_aud]
    on, a parsed [aud] must meet the configured audience, and is refused
    ([InvalidAudience]) when none is configured. *)
Definition aud_ok (fs : list (string * json)) (v : Validation) : bool :=
  if validate_aud v then
    match aud_claim fs, aud_expected v with
    | AudSingle _, None | AudMultiple _, None => false
    | AudSingle a, Some correct => existsb (String.eqb a) correct
    | AudMultiple l, Some correct => existsb (fun a => existsb (String.eqb a) correct) l
    | AudNotPresent, Some _ => negb (existsb (String.eqb "aud") (required_spec_claims v))
    | _, _ => true
    end
  else true.

(** A parsed [mime::Mime]: its type, subtype and [+suffix], lower case. *)
Record Mime := mkMime {
  mime_type : string;
  mime_subtype : string;
  mime_suffix : option string
}.

(** ** Concrete instances: token libraries, files, directories *)

(** A token library that accepts no token. *)
Definition reject_all_tokens : string -> string -> list Algorithm -> option json :=
  fun _ _ _ => None.


(** The same token with a subject as well. *)
Definition sub_token_lib : string -> string -> list Algorithm -> option json :=
  fun token _ algs =>
    if String.eqb token "tok" && existsb (fun a => match a with HS256 => true | _ => false end) algs
    then Some (JObj [("sub", JStr "user-1"); ("exp", JNum 4102444800)]) else None.

Definition byte_of (n : nat) : Byte.byte :=
  match Byte.of_nat n with Some b => b | None => Byte.x00 end.

(** A 20-byte track whose byte [i] is [i]. *)
Definition file20 : list Byte.byte := map byte_of (seq 0 20).

(** A directory holding only [t.mp3] with contents [f]. *)
Definition dir_with_t (f : list Byte.byte) : string -> option (list Byte.byte) :=
  fun name => if String.eqb name "t.mp3" then Some f else None.

Definition empty_dir : string -> option (list Byte.byte) := fun _ => None.

(** A token library for which ["tok"] is signed with a subject, an expiry
    in 2100 and the audience ["authenticated"], as tokens issued by
    Supabase carry it. *)
Definition aud_token_lib : string -> string -> list Algorithm -> option json :=
  fun token _ algs =>
    if String.eqb token "tok" && existsb (fun a => match a with HS256 => true | _ => false end) algs
    then Some (JObj [("sub", JStr "user-1"); ("exp", JNum 4102444800);
                     ("aud", JStr "authenticated")]) else None.

(** A media-type parser that knows [application/json] only. *)
Definition json_only_mime (s : string) : option Mime :=
  if String.eqb s "application/json" then Some (mkMime "application" "json" None) else None.

Section Server.

(** The [jsonwebtoken] crate is not part of this repository.  Its
    signature, header and algorithm checks are the
    parameter [jwt_signed_payload]: the decoded JSON payload of [token]
    when those checks pass for the key made from [secret] and the
    allowed algorithms, [None] otherwise.  [now] is the current Unix
    time read by the expiry check. *)
Variable jwt_signed_payload : string -> string -> list Algorithm -> option json.
Variable now : Z.

(** The [mime] crate is not part of this repository either:
    [mime_parse] is [str::parse::<mime::Mime>], [None] on a parse error. *)
Variable mime_parse : string -> option Mime.

(** The crate's check of [required_spec_claims], of expiry and of the
    audience. *)
Definition validate_registered (fs : list (string * json)) (v : Validation) : bool :=
  forallb (fun c => match claim_parsed c fs with Some _ => true | None => false end)
          (required_spec_claims v)
  && negb (validate_exp v &&
           match claim_parsed "exp" fs with
           | Some (JNum e) => e <? now - leeway v
           | _ => false
           end)
  && aud_ok fs v.

(** [jsonwebtoken::decode::<Claims>]. *)
Definition jwt_decode (token secret : string) (v : Validation) : option Claims :=
  match jwt_signed_payload token secret (algorithms v) with
  | Some (JObj fs) =>
      if validate_registered fs v then
        match deserialize_claims (JObj fs) with
        | Ok c => Some c
        | Err _ => None
        end
      else None
  | _ => None
  end.

(** [decode_and_validate_token]. *)
Definition decode_and_validate_token (token jwt_secret : string)
  : result Claims StatusCode :=
  match jwt_decode token jwt_secret supabase_validation with
  | Some c => Ok c
  | None => Err UNAUTHORIZED
  end.

(** The fixed identity manufactured for the [apikey] header. *)
Definition anon_claims : Claims :=
  mkClaims "anon-user" None (Some "anon") usize_max None None.

(** [verify_supabase_token]: a visible-ASCII [Authorization] value that
    starts with ["Bearer "] decides alone ([return]); otherwise a
    visible-ASCII, non-empty [apikey] value yields [anon_claims]. *)
Definition verify_supabase_token (headers : HeaderMap) (jwt_secret : string)
  : result Claims StatusCode :=
  let apikey_path :=
    match hm_get "apikey" headers with
    | Some api_key =>
        match header_to_str api_key with
        | Some key_value =>
            if negb (is_empty key_value) then Ok anon_claims
            else Err UNAUTHORIZED
        | None => Err UNAUTHORIZED
        end
    | None => Err UNAUTHORIZED
    end in
  match hm_get "authorization" headers with
  | Some auth_header =>
      match header_to_str auth_header with
      | Some auth_value =>
          if starts_with "Bearer " auth_value then
            decode_and_validate_token (substring 7 (length auth_value) auth_value)
                                      jwt_secret
          else apikey_path
      | None => apikey_path
      end
  | None => apikey_path
  end.


(** ** Responses *)

Inductive Body := BodyEmpty | BodyBytes (bs : list Byte.byte) | BodyJson (j : json).

Record Response := mkResponse {
  status : StatusCode;
  resp_headers : HeaderMap;
  body : Body
}.

(** [IntoResponse] for [Result<impl IntoResponse, StatusCode>]: a bare
    status code answers with an empty body. *)
Definition into_response (r : result Response StatusCode) : Response :=
  match r with
  | Ok resp => resp
  | Err s => mkResponse s [] BodyEmpty
  end.

(** [Json(v).into_response()] with a status. *)
Definition json_response (s : StatusCode) (j : json) : Response :=
  mkResponse s [("content-type", "application/json")] (BodyJson j).

(** [error_response] of [src/auth/mod.rs]. *)
Definition error_response (s : StatusCode) (message : string) : Response :=
  json_response s (JObj [("error", JStr message)]).

(** ** The routed application ([src/lib.rs], [src/auth/middleware.rs]) *)

(** A music directory: file name to contents, for the regular files it
    holds; [File::open] of a name it lacks fails. *)
Definition MusicDir := string -> option (list Byte.byte).

(** [music_dir.join(format!("{}.mp3", id))], relative to the directory. *)
Definition track_file (id : string) : string := id ++ ".mp3".

(** [pub struct AppState] of [src/lib.rs]. *)
Record AppState := mkAppState {
  music_dir : MusicDir;
  supabase_jwt_secret : string;
  track_ids : list string
}.

(** [require_auth]: verification first; on success the claims go into
    the request extensions and [next] runs, otherwise 401 with an error
    body. *)
Definition require_auth (state : AppState) (headers : HeaderMap)
  (next : Claims -> Response) : Response :=
  match verify_supabase_token headers (supabase_jwt_secret state) with
  | Ok claims => next claims
  | Err _ => error_response UNAUTHORIZED "Authentication required"
  end.

(** [stream_track] of [src/lib.rs]. *)
Definition lib_stream_track (id : string) (state : AppState) (headers : HeaderMap)
  : result Response StatusCode :=
  _ <-? verify_supabase_token headers (supabase_jwt_secret state) ;;
  match music_dir state (track_file id) with
  | None => Err NOT_FOUND
  | Some file =>
      let file_size := Z.of_nat (List.length file) in
      Ok (mkResponse OK
            [("content-type", "audio/mpeg");
             ("content-length", fmt_int file_size)]
            (BodyBytes file))
  end.

(** [#[derive(Deserialize)] struct PrefetchRequest { track_ids: Vec<String> }]. *)
Fixpoint de_strings (xs : list json) : option (list string) :=
  match xs with
  | [] => Some []
  | JStr s :: xs' => match de_strings xs' with
                     | Some r => Some (s :: r)
                     | None => None
                     end
  | _ :: _ => None
  end.

Definition deserialize_prefetch_request (j : json) : option (list string) :=
  match j with
  | JObj fs => match jfield_all "track_ids" fs with
               | [JArr xs] => de_strings xs
               | _ => None
               end
  | _ => None
  end.

(** [prefetch_tracks] of [src/lib.rs]: partitions the identifiers by the
    existence of their files; nothing is queued. *)
Definition lib_prefetch_tracks (state : AppState) (headers : HeaderMap)
  (payload : list string) : result Response StatusCode :=
  _ <-? verify_supabase_token headers (supabase_jwt_secret state) ;;
  let exists_ id := match music_dir state (track_file id) with
                    | Some _ => true | None => false end in
  Ok (json_response OK
        (JObj [("valid_track_ids", JArr (map JStr (filter exists_ payload)));
               ("invalid_track_ids",
                 JArr (map JStr (filter (fun id => negb (exists_ id)) payload)))])).

(** [Option<String>] serialised by [serde_json::json!]. *)
Definition json_opt_string (o : option string) : json :=
  match o with Some s => JStr s | None => JNull end.

(** [user_info] of [src/lib.rs]. *)
Definition lib_user_info (headers : HeaderMap) (state : AppState)
  : result Response StatusCode :=
  claims <-? verify_supabase_token headers (supabase_jwt_secret state) ;;
  Ok (json_response OK
        (JObj [("user_id", JStr (sub claims));
               ("email", json_opt_string (email claims))])).

(** Requests reaching the protected routes.  The body of [POST /prefetch]
    is [None] when it is not JSON at all. *)
Inductive Request :=
| GET_tracks (id : string) (headers : HeaderMap)
| POST_prefetch (headers : HeaderMap) (body_len : Z) (payload : option json)
| GET_me (headers : HeaderMap).

(** [json_content_type] of axum's [Json] extractor: a [Content-Type] that
    is visible ASCII, parses as a media type, has type [application] and
    subtype [json] or suffix [+json]. *)
Definition json_content_type (headers : HeaderMap) : bool :=
  match hm_get "content-type" headers with
  | Some content_type =>
      match header_to_str content_type with
      | Some s =>
          match mime_parse s with
          | Some mime =>
              String.eqb (mime_type mime) "application"
              && (String.eqb (mime_subtype mime) "json"
                  || match mime_suffix mime with
                     | Some name => String.eqb name "json"
                     | None => false
                     end)
          | None => false
          end
      | None => false
      end
  | None => false
  end.

(** axum's [DefaultBodyLimit]: 2 MB. *)
Definition default_body_limit : Z := 2097152.

(** The protected router of [create_app]: [route_layer(require_auth)] runs
    before the handler and before its [Json] extractor, which refuses a
    non-JSON [Content-Type] (415), then a body over the limit (413), then
    a body that is not JSON (400) or JSON of the wrong shape (422). *)
Definition create_app (state : AppState) (req : Request) : Response :=
  match req with
  | GET_tracks id headers =>
      require_auth state headers
        (fun _ => into_response (lib_stream_track id state headers))
  | POST_prefetch headers body_len payload =>
      require_auth state headers
        (fun _ =>
           if negb (json_content_type headers) then mkResponse UNSUPPORTED_MEDIA_TYPE [] BodyEmpty
           else if default_body_limit <? body_len then mkResponse PAYLOAD_TOO_LARGE [] BodyEmpty
           else match payload with
                | None => mkResponse BAD_REQUEST [] BodyEmpty
                | Some j =>
                    match deserialize_prefetch_request j with
                    | None => mkResponse 422 [] BodyEmpty
                    | Some ids => into_response (lib_prefetch_tracks state headers ids)
                    end
                end)
  | GET_me headers =>
      require_auth state headers
        (fun _ => into_response (lib_user_info headers state))
  end.

(** ** The binary's handlers ([src/main.rs]) *)

(** Greedy [\d+]: the leading ASCII digits and the rest.  (The value has
    passed [to_str], so only ASCII digits can occur.) *)
Definition is_digit (c : ascii) : bool :=
  (48 <=? nat_of_ascii c)%nat && (nat_of_ascii c <=? 57)%nat.

Fixpoint take_digits (s : string) : string * string :=
  match s with
  | String c s' =>
      if is_digit c then
        let (d, r) := take_digits s' in (String c d, r)
      else (EmptyString, s)
  | EmptyString => (EmptyString, EmptyString)
  end.

(** A match of [bytes=(\d+)-(\d+)?] starting at the head of [s]. *)
Definition range_match_at (s : string) : option (string * option string) :=
  if starts_with "bytes=" s then
    let (d1, r1) := take_digits (substring 6 (length s) s) in
    if is_empty d1 then None
    else match r1 with
         | String "-" r2 =>
             let (d2, _) := take_digits r2 in
             Some (d1, if is_empty d2 then None else Some d2)
         | _ => None
         end
  else None.

(** [Regex::new(r"bytes=(\d+)-(\d+)?").captures(s)]: the leftmost match
    anywhere in [s] (the pattern is not anchored). *)
Fixpoint range_captures (s : string) : option (string * option string) :=
  match range_match_at s with
  | Some caps => Some caps
  | None => match s with
            | EmptyString => None
            | String _ s' => range_captures s'
            end
  end.

Fixpoint digits_value (acc : Z) (s : string) : Z :=
  match s with
  | EmptyString => acc
  | String c s' => digits_value (10 * acc + (Z.of_nat (nat_of_ascii c) - 48)) s'
  end.

(** [str::parse::<u64>] on a string of ASCII digits. *)
Definition parse_u64 (d : string) : option Z :=
  if is_empty d then None
  else let n := digits_value 0 d in if n <=? u64_max then Some n else None.

(** The [range] computed by [stream_track] of [src/main.rs].  The default
    [file_size - 1] is the argument of [unwrap_or], so it is evaluated
    whenever the start parses. *)
Definition resolve_range (b : build) (range_header : option string) (file_size : Z)
  : outcome (option (Z * Z)) :=
  match range_header with
  | None => Done None
  | Some value =>
      match header_to_str value with
      | None => Done None
      | Some s =>
          match range_captures s with
          | None => Done None
          | Some (d1, d2) =>
              match parse_u64 d1 with
              | None => Done None
              | Some start =>
                  dflt <- u64_sub b file_size 1 ;;
                  let end_ := match d2 with
                              | Some d => match parse_u64 d with
                                          | Some e => e
                                          | None => dflt
                                          end
                              | None => dflt
                              end in
                  Done (Some (start, end_))
              end
          end
      end
  end.

(** [struct AppState] of [src/main.rs]; the queue is behind a mutex, so
    each lock section is one atomic step on it. *)
Record MainAppState := mkMainAppState {
  m_music_dir : MusicDir;
  m_supabase_jwt_secret : string;
  prefetch_queue : list string
}.

(** [stream_track] of [src/main.rs].  For a file that [exists()], opening
    it and reading its metadata succeed.  [file.take(n)] reads from the
    current position of the freshly opened file, i.e. from byte 0. *)
Definition main_stream_track (b : build) (track_id : string) (state : MainAppState)
  (headers : HeaderMap) : outcome (result Response StatusCode) :=
  match m_music_dir state (track_file track_id) with
  | None => Done (Err NOT_FOUND)
  | Some file =>
      match verify_supabase_token headers (m_supabase_jwt_secret state) with
      | Err e => Done (Err e)
      | Ok _ =>
          let file_size := Z.of_nat (List.length file) in
          range <- resolve_range b (hm_get "range" headers) file_size ;;
          match range with
          | Some (start, end_) =>
              d <- u64_sub b end_ start ;;
              n <- u64_add b d 1 ;;
              Done (Ok (mkResponse PARTIAL_CONTENT
                          [("content-type", "audio/mpeg");
                           ("content-range", "bytes " ++ fmt_int start ++ "-"
                                              ++ fmt_int end_ ++ "/" ++ fmt_int file_size);
                           ("content-length", fmt_int n)]
                          (BodyBytes (firstn (Z.to_nat n) file))))
          | None =>
              Done (Ok (mkResponse OK
                          [("content-type", "audio/mpeg");
                           ("content-length", fmt_int file_size)]
                          (BodyBytes file)))
          end
      end
  end.

(** [VecDeque::push_back] and [VecDeque::pop_front]. *)
Definition push_back (q : list string) (x : string) : list string := (q ++ [x])%list.

Definition pop_front (q : list string) : option string * list string :=
  match q with
  | [] => (None, [])
  | x :: q' => (Some x, q')
  end.

(** [for track_id in request.track_ids { queue.lock().await.push_back(track_id) }]. *)
Fixpoint push_all (q : list string) (ids : list string) : list string :=
  match ids with
  | [] => q
  | id :: ids' => push_all (push_back q id) ids'
  end.

(** [prefetch_tracks] of [src/main.rs], after its [Json] extractor. *)
Definition main_prefetch_tracks (state : MainAppState) (headers : HeaderMap)
  (track_ids : list string) : MainAppState * result StatusCode StatusCode :=
  match verify_supabase_token headers (m_supabase_jwt_secret state) with
  | Err e => (state, Err e)
  | Ok _ =>
      (mkMainAppState (m_music_dir state) (m_supabase_jwt_secret state)
                      (push_all (prefetch_queue state) track_ids),
       Ok OK)
  end.

(** [user_info] of [src/main.rs]. *)
Definition main_user_info (state : MainAppState) (headers : HeaderMap)
  : result Response StatusCode :=
  claims <-? verify_supabase_token headers (m_supabase_jwt_secret state) ;;
  Ok (json_response OK
        (JObj [("id", JStr (sub claims));
               ("email", json_opt_string (email claims));
               ("role", JStr (match role claims with
                              | Some r => r
                              | None => "authenticated"
                              end))])).

(** ** The prefetch worker ([prefetch_task] of [src/main.rs]) *)

(** What the worker sees of a file: whether [File::open] succeeds, and
    the results of its successive [read] calls (a byte count or an I/O
    error; once the list is used up, [read] returns [Ok(0)]). *)
Record WarmFile := mkWarmFile {
  open_ok : bool;
  reads : list (result Z unit)
}.

(** [path.exists()] holds iff the name is present. *)
Definition WarmDir := string -> option WarmFile.

(** [while let Ok(n) = file.read(&mut buffer) { if n == 0 { break; } }]:
    the number of [read] calls the loop makes. *)
Fixpoint read_loop (rs : list (result Z unit)) : nat :=
  match rs with
  | [] => 1
  | Ok n :: rs' => if n =? 0 then 1 else S (read_loop rs')
  | Err _ :: _ => 1
  end.

Inductive WorkerEvent :=
| Prefetched (track_id : string)   (* tracing::info!("Prefetched track: {}") *)
| Sleep (ms : Z).                  (* tokio::time::sleep(100 ms) *)

(** One iteration of the [loop] of [prefetch_task]: the queue after it
    and the events it produces. *)
Definition prefetch_iteration (dir : WarmDir) (q : list string)
  : list string * list WorkerEvent :=
  let (track_id, q') := pop_front q in
  let warmed :=
    match track_id with
    | Some id =>
        match dir (track_file id) with
        | Some f =>
            if open_ok f then
              match read_loop (reads f) with
              | _ => [Prefetched id]
              end
            else []
        | None => []
        end
    | None => []
    end in
  (q', (warmed ++ [Sleep 100])%list).

(** [n] iterations of the worker loop alone ([prefetch_task] never
    returns), with the identifiers taken from the queue, in order. *)
Fixpoint prefetch_task (n : nat) (dir : WarmDir) (q : list string)
  : list string * list string * list WorkerEvent :=
  match n with
  | O => (q, [], [])
  | S n' =>
      let (q1, ev) := prefetch_iteration dir q in
      let '(q2, taken, evs) := prefetch_task n' dir q1 in
      (q2, match fst (pop_front q) with Some id => id :: taken | None => taken end,
       (ev ++ evs)%list)
  end.

(** The sleeps among the worker's events. *)
Definition is_sleep (ev : WorkerEvent) : bool :=
  match ev with Sleep _ => true | Prefetched _ => false end.

(** The bearer token of a request, as the claims speak of it: an
    [Authorization] value that is visible ASCII and starts with ["Bearer "]. *)
Definition bearer_token (headers : HeaderMap) : option string :=
  match hm_get "authorization" headers with
  | Some v => if visible_ascii v && starts_with "Bearer " v
              then Some (substring 7 (length v) v) else None
  | None => None
  end.


(** A non-empty string of ASCII digits. *)
Fixpoint all_digits (s : string) : bool :=
  match s with
  | EmptyString => true
  | String c s' => is_digit c && all_digits s'
  end.

(** ** Track listings ([random_track] of [src/lib.rs] and [src/main.rs]) *)

(** [s.strip_suffix(suf)]. *)
Fixpoint strip_suffix (suf s : string) : option string :=
  if String.eqb s suf then Some EmptyString
  else match s with
       | EmptyString => None
       | String c s' => option_map (String c) (strip_suffix suf s')
       end.

(** [s.ends_with(suf)]. *)
Definition ends_with (suf s : string) : bool :=
  match strip_suffix suf s with Some _ => true | None => false end.

(** [s.trim_end_matches(suf)] for a non-empty [suf]: strips the suffix as
    often as it occurs (each strip shortens [s], so [length s + 1] rounds
    suffice). *)
Fixpoint trim_end_fuel (fuel : nat) (suf s : string) : string :=
  match fuel with
  | O => s
  | S f => match strip_suffix suf s with
           | Some p => trim_end_fuel f suf p
           | None => s
           end
  end.

Definition trim_end_matches (suf s : string) : string :=
  trim_end_fuel (S (length s)) suf s.

(** [fs::read_dir(music_dir)]: [None] when the directory cannot be read,
    else the names of its entries in the order the OS lists them (names
    that are not UTF-8 are dropped by [to_str] and are not represented). *)
Definition DirListing := option (list string).

(** The loop of [random_track] of [src/lib.rs]. *)
Fixpoint lib_collect_track_ids (names : list string) : list string :=
  match names with
  | [] => []
  | file_name :: names' =>
      if ends_with ".mp3" file_name then
        match strip_suffix ".mp3" file_name with
        | Some track_id => track_id :: lib_collect_track_ids names'
        | None => lib_collect_track_ids names'
        end
      else lib_collect_track_ids names'
  end.

(** [random_track] of [src/lib.rs].  [choose] is [track_ids.choose(&mut rng)];
    the result of the best-effort [verify_supabase_token] call is discarded
    and does not enter the response. *)
Definition lib_random_track (listing : DirListing) (choose : list string -> option string)
  : Response :=
  let track_ids := match listing with
                   | Some names => lib_collect_track_ids names
                   | None => []
                   end in
  match choose track_ids with
  | Some track_id => json_response OK (JObj [("track_id", JStr track_id)])
  | None => json_response NOT_FOUND (JObj [("error", JStr "No tracks found")])
  end.

(** The loop of [random_track] of [src/main.rs] ([trim_end_matches]). *)
Fixpoint main_collect_track_ids (names : list string) : list string :=
  match names with
  | [] => []
  | file_name :: names' =>
      if ends_with ".mp3" file_name then
        trim_end_matches ".mp3" file_name :: main_collect_track_ids names'
      else main_collect_track_ids names'
  end.

(** [random_track] of [src/main.rs]: [Json(..)] without a status code,
    i.e. 200 in both branches. *)
Definition main_random_track (listing : DirListing) (choose : list string -> option string)
  : Response :=
  let track_ids := match listing with
                   | Some names => main_collect_track_ids names
                   | None => []
                   end in
  match choose track_ids with
  | Some track_id => json_response OK (JObj [("track_id", JStr track_id)])
  | None => json_response OK (JObj [("error", JStr "No tracks found")])
  end.

(** [SliceRandom::choose]: [None] exactly on the empty slice, otherwise
    one of its elements. *)
Definition chooser_ok (choose : list string -> option string) : Prop :=
  (forall l, choose l = None <-> l = []) /\ (forall l x, choose l = Some x -> In x l).

(** ** Serialising [Claims] ([#[derive(Serialize)]], fields in order) *)
Definition serialize_claims (c : Claims) : json :=
  JObj [("sub", JStr (sub c)); ("email", json_opt_string (email c));
        ("role", json_opt_string (role c)); ("exp", JNum (exp c));
        ("aud", json_opt_string (aud c)); ("iss", json_opt_string (iss c))].

(** The first chooser: the head of the slice. *)
Definition choose_first (l : list string) : option string :=
  match l with [] => None | x :: _ => Some x end.

(** ** Helper lemmas *)

Lemma substring_0_long (s : string) (m : nat) :
  (length s <= m)%nat -> substring 0 m s = s.
Proof.
  revert m; induction s as [|c s IH]; intros m Hm; destruct m; simpl in *;
    try reflexivity; try lia.
  f_equal; apply IH; lia.
Qed.

Lemma substring_drop_prefix (p s : string) (m : nat) :
  substring (length p) m (p ++ s) = substring 0 m s.
Proof. induction p as [|c p IH]; simpl; auto. Qed.

Lemma length_append_ge (p s : string) : (length s <= length (p ++ s))%nat.
Proof. induction p; simpl; lia. Qed.

Lemma substring_after_prefix (p s : string) :
  substring (length p) (length (p ++ s)) (p ++ s) = s.
Proof.
  rewrite substring_drop_prefix. apply substring_0_long, length_append_ge.
Qed.


Lemma bearer_header_value (token : string) :
  visible_ascii token = true ->
  header_to_str ("Bearer " ++ token) = Some ("Bearer " ++ token)
  /\ starts_with "Bearer " ("Bearer " ++ token) = true.
Proof.
  intro H; unfold header_to_str; simpl; rewrite H; auto.
Qed.

Lemma verify_bearer (token jwt_secret : string) :
  visible_ascii token = true ->
  verify_supabase_token [("authorization", "Bearer " ++ token)] jwt_secret
  = decode_and_validate_token token jwt_secret.
Proof.
  intro H. destruct (bearer_header_value token H) as [Hv Hs].
  unfold verify_supabase_token. cbn [hm_get]. rewrite String.eqb_refl.
  cbv beta iota. rewrite Hv. cbv beta iota. rewrite Hs.
  change 7%nat with (length "Bearer "). rewrite substring_after_prefix.
  reflexivity.
Qed.

(** ** Credential verification *)

(** C1 (amended).  When the request has a visible-ASCII, non-empty
    [apikey] value and no visible-ASCII [Authorization] value starting
    with ["Bearer "], verification returns the fixed anonymous identity
    (subject ["anon-user"], role ["anon"]).  When such a Bearer header is
    present, the result is that of the token check alone: the [apikey]
    is not consulted. *)
Theorem C1_apikey_anon_identity (headers : HeaderMap) (jwt_secret key : string)
  (Hkey : hm_get "apikey" headers = Some key)
  (Hvis : visible_ascii key = true) (Hne : key <> "") :
  (bearer_token headers = None ->
   verify_supabase_token headers jwt_secret = Ok anon_claims) /\
  (forall token, bearer_token headers = Some token ->
   verify_supabase_token headers jwt_secret = decode_and_validate_token token jwt_secret).
Proof.
  assert (Hk : is_empty key = false) by (destruct key; [congruence | reflexivity]).
  unfold verify_supabase_token, bearer_token, header_to_str.
  rewrite Hkey, Hvis, Hk.
  destruct (hm_get "authorization" headers) as [v|].
  - destruct (visible_ascii v), (starts_with "Bearer " v); cbn [andb negb];
      split; intros; try discriminate; try reflexivity; congruence.
  - cbn [negb]; split; intros H; [reflexivity | discriminate].
Qed.


(** ** The routed track, prefetch and user endpoints *)

(** C4 (amended).  For a track whose file [{id}.mp3] is absent, the
    routed [GET /tracks/{id}] answers 404 when the request carries a
    credential the verifier accepts, and 401 (from [require_auth], before
    the handler looks at the file) when it does not, e.g. with no
    credential at all. *)
Theorem C4_missing_track_status (state : AppState) (id : string) (headers : HeaderMap)
  (Hmiss : music_dir state (track_file id) = None) :
  (forall c, verify_supabase_token headers (supabase_jwt_secret state) = Ok c ->
     status (create_app state (GET_tracks id headers)) = NOT_FOUND) /\
  (forall e, verify_supabase_token headers (supabase_jwt_secret state) = Err e ->
     status (create_app state (GET_tracks id headers)) = UNAUTHORIZED).
Proof.
  split; intros ? H; simpl; unfold require_auth, lib_stream_track; rewrite H;
    simpl; [rewrite Hmiss|]; reflexivity.
Qed.

(** C9 (amended).  An admitted [GET /me] answers 200 with the JSON
    object [{user_id: sub, email: email or null}] of the verified claims;
    the body has no [role] field. *)
Theorem C9_me_response (state : AppState) (headers : HeaderMap) (c : Claims)
  (Hauth : verify_supabase_token headers (supabase_jwt_secret state) = Ok c) :
  create_app state (GET_me headers)
  = json_response OK (JObj [("user_id", JStr (sub c));
                            ("email", json_opt_string (email c))]).
Proof.
  simpl. unfold require_auth, lib_user_info. rewrite Hauth. reflexivity.
Qed.

(** ** Range resolution and the partial-content responder of [src/main.rs] *)

Ltac split_matches :=
  repeat match goal with
         | H : context [match ?x with _ => _ end] |- _ => destruct x eqn:?
         | |- context [match ?x with _ => _ end] => destruct x eqn:?
         end.

(** C5 (amended).  When the [Range] header is absent, is not visible
    ASCII, contains no substring matching [bytes=<digits>-<digits>?] (the
    regex is searched for, not anchored), or the first match's start does
    not fit a [u64], an admitted request for an existing track gets 200 with
    [Content-Length] the file size and the whole file as body.  A header
    that merely contains such a match (e.g. ["bytes=0-1x"]) is served as a
    range: see [C5_counterexample]. *)
Theorem C5_unparsed_range_whole (b : build) (track_id : string) (state : MainAppState)
  (headers : HeaderMap) (file : list Byte.byte) (c : Claims)
  (Hfile : m_music_dir state (track_file track_id) = Some file)
  (Hauth : verify_supabase_token headers (m_supabase_jwt_secret state) = Ok c)
  (Hnone : hm_get "range" headers = None \/
           exists v, hm_get "range" headers = Some v /\
             (visible_ascii v = false \/ range_captures v = None \/
              exists d1 d2, range_captures v = Some (d1, d2) /\ parse_u64 d1 = None)) :
  main_stream_track b track_id state headers
  = Done (Ok (mkResponse OK
                [("content-type", "audio/mpeg");
                 ("content-length", fmt_int (Z.of_nat (List.length file)))]
                (BodyBytes file))).
Proof.
  unfold main_stream_track. rewrite Hfile, Hauth.
  assert (Hr : resolve_range b (hm_get "range" headers) (Z.of_nat (List.length file))
               = Done None).
  { unfold resolve_range.
    destruct Hnone as [H | [v [H [H1 | [H1 | [d1 [d2 [H1 H2]]]]]]]];
      rewrite H; unfold header_to_str; try reflexivity.
    - rewrite H1; reflexivity.
    - destruct (visible_ascii v); [rewrite H1|]; reflexivity.
    - destruct (visible_ascii v); [rewrite H1, H2|]; reflexivity. }
  rewrite Hr. reflexivity.
Qed.

(** C6 (amended).  Track-retrieval responses never carry an
    [Accept-Ranges] header: neither those of [stream_track] of
    [src/main.rs] (200 or 206) nor those of the routed [GET /tracks/{id}].
    Every response of [stream_track] of [src/main.rs] carries
    [Content-Type: audio/mpeg]; a 200 carries [Content-Length] the file
    size, a 206 [Content-Range: bytes s-e/L] and [Content-Length]
    [(e - s + 1) mod 2^64].  A 200 of the routed endpoint carries
    [Content-Type: audio/mpeg] and [Content-Length] the file size. *)
Theorem C6_no_accept_ranges (b : build) (track_id : string) (mstate : MainAppState)
  (state : AppState) (headers : HeaderMap) :
  (forall r, main_stream_track b track_id mstate headers = Done (Ok r) ->
     hm_get "accept-ranges" (resp_headers r) = None /\
     hm_get "content-type" (resp_headers r) = Some "audio/mpeg" /\
     exists file, m_music_dir mstate (track_file track_id) = Some file /\
       ((status r = OK /\
         hm_get "content-length" (resp_headers r)
         = Some (fmt_int (Z.of_nat (List.length file)))) \/
        (status r = PARTIAL_CONTENT /\
         exists s e, hm_get "content-range" (resp_headers r)
                     = Some ("bytes " ++ fmt_int s ++ "-" ++ fmt_int e ++ "/"
                             ++ fmt_int (Z.of_nat (List.length file)))
                   /\ hm_get "content-length" (resp_headers r)
                      = Some (fmt_int ((e - s + 1) mod 2 ^ 64))))) /\
  hm_get "accept-ranges" (resp_headers (create_app state (GET_tracks track_id headers)))
  = None /\
  (status (create_app state (GET_tracks track_id headers)) = OK ->
   hm_get "content-type" (resp_headers (create_app state (GET_tracks track_id headers)))
   = Some "audio/mpeg" /\
   exists file, music_dir state (track_file track_id) = Some file /\
     hm_get "content-length" (resp_headers (create_app state (GET_tracks track_id headers)))
     = Some (fmt_int (Z.of_nat (List.length file)))).
Proof.
  split; [|split].
  - intros r H. unfold main_stream_track in H.
    destruct (m_music_dir mstate (track_file track_id)) as [file|] eqn:Hf; [|discriminate].
    destruct (verify_supabase_token headers (m_supabase_jwt_secret mstate)); [|discriminate].
    destruct (resolve_range b (hm_get "range" headers) (Z.of_nat (List.length file)))
      as [[[st en]|]|msg]; simpl in H; [| | discriminate].
    + destruct b; simpl in H.
      * destruct (en <? st) eqn:H1; [discriminate|]. simpl in H.
        destruct (u64_max <? en - st + 1) eqn:H2; [discriminate|].
        injection H as <-. apply Z.ltb_ge in H1; apply Z.ltb_ge in H2.
        split; [reflexivity | split; [reflexivity|]].
        exists file. split; [reflexivity|]. right. split; [reflexivity|].
        exists st, en. split; [reflexivity|].
        transitivity (Some (fmt_int (en - st + 1))); [reflexivity|].
        rewrite Z.mod_small; [reflexivity | unfold u64_max in H2; lia].
      * injection H as <-.
        split; [reflexivity | split; [reflexivity|]].
        exists file. split; [reflexivity|]. right. split; [reflexivity|].
        exists st, en. split; [reflexivity|].
        transitivity (Some (fmt_int (((en - st) mod 2 ^ 64 + 1) mod 2 ^ 64))); [reflexivity|].
        rewrite Z.add_mod_idemp_l by lia. reflexivity.
    + injection H as <-. split; [reflexivity | split; [reflexivity|]].
      exists file. split; [reflexivity|]. left. split; reflexivity.
  - simpl. unfold require_auth, lib_stream_track, into_response, rbind.
    split_matches; try discriminate;
      repeat match goal with H : Ok _ = Ok _ |- _ => injection H as H; subst end;
      reflexivity.
  - simpl. unfold require_auth, lib_stream_track, into_response, rbind.
    destruct (verify_supabase_token headers (supabase_jwt_secret state));
      [|intro H; discriminate H].
    destruct (music_dir state (track_file track_id)) as [file|] eqn:Hf;
      [|intro H; discriminate H].
    intros _. split; [reflexivity|]. exists file. split; reflexivity.
Qed.

Lemma visible_ascii_app (x y : string) :
  visible_ascii (x ++ y) = visible_ascii x && visible_ascii y.
Proof. induction x as [|c x IH]; simpl; [reflexivity|]. rewrite IH, andb_assoc. reflexivity. Qed.

Lemma all_digits_visible (d : string) : all_digits d = true -> visible_ascii d = true.
Proof.
  induction d as [|c d IH]; simpl; [reflexivity|].
  intro H. apply andb_prop in H as [Hc Hd]. apply andb_prop in Hc as [H0 H9].
  rewrite (IH Hd), andb_true_r.
  unfold visible_ascii_char. apply orb_true_intro; left.
  apply Nat.leb_le in H0; apply Nat.leb_le in H9.
  apply andb_true_intro; split; [apply Nat.leb_le | apply Nat.ltb_lt]; lia.
Qed.

Lemma take_digits_app (d s : string) :
  all_digits d = true ->
  take_digits (d ++ s) = (d ++ fst (take_digits s), snd (take_digits s)).
Proof.
  induction d as [|c d IH]; simpl; intro H.
  - destruct (take_digits s); reflexivity.
  - apply andb_prop in H as [Hc Hd]. rewrite Hc, (IH Hd). reflexivity.
Qed.

Lemma str_append_empty_r (s : string) : (s ++ "")%string = s.
Proof. induction s as [|c s IH]; simpl; [reflexivity | rewrite IH; reflexivity]. Qed.

Lemma starts_with_app (p s : string) : starts_with p (p ++ s) = true.
Proof. induction p as [|c p IH]; simpl; [reflexivity | rewrite Ascii.eqb_refl, IH; reflexivity]. Qed.

Lemma range_captures_head (s : string) (caps : string * option string) :
  range_match_at s = Some caps -> range_captures s = Some caps.
Proof. intro H; destruct s; cbn [range_captures]; rewrite H; reflexivity. Qed.

Lemma parse_u64_nonempty (d : string) (n : Z) : parse_u64 d = Some n -> is_empty d = false.
Proof. unfold parse_u64. destruct (is_empty d); [discriminate | reflexivity]. Qed.

Lemma range_captures_open_ended (d : string) (start : Z) :
  all_digits d = true -> parse_u64 d = Some start ->
  range_captures ("bytes=" ++ d ++ "-") = Some (d, None).
Proof.
  intros Hd Hs. apply range_captures_head. unfold range_match_at.
  rewrite starts_with_app. change 6%nat with (length "bytes=").
  rewrite substring_after_prefix, (take_digits_app d "-" Hd).
  simpl fst; simpl snd. rewrite str_append_empty_r.
  rewrite (parse_u64_nonempty d start Hs). reflexivity.
Qed.

(** C10.  With total length 0, a parseable open-ended specifier
    [bytes=<start>-] makes the default end [file_size - 1] underflow: a
    debug build panics, a release build wraps the end to [2^64 - 1].  With
    total length at least 1 the resolver always returns. *)
Theorem C10_empty_resource_underflow (d : string) (start : Z)
  (Hd : all_digits d = true) (Hstart : parse_u64 d = Some start) :
  (exists msg, resolve_range Debug (Some ("bytes=" ++ d ++ "-")) 0 = Panic msg) /\
  resolve_range Release (Some ("bytes=" ++ d ++ "-")) 0 = Done (Some (start, u64_max)) /\
  (forall b h file_size, 1 <= file_size -> exists r, resolve_range b h file_size = Done r).
Proof.
  assert (Hv : header_to_str ("bytes=" ++ d ++ "-") = Some ("bytes=" ++ d ++ "-")).
  { unfold header_to_str. rewrite !visible_ascii_app, (all_digits_visible d Hd). reflexivity. }
  split; [|split].
  - unfold resolve_range. rewrite Hv, (range_captures_open_ended d start Hd Hstart), Hstart.
    eexists; reflexivity.
  - unfold resolve_range. rewrite Hv, (range_captures_open_ended d start Hd Hstart), Hstart.
    reflexivity.
  - intros b h L HL. unfold resolve_range.
    destruct h as [v|]; [|eauto].
    destruct (header_to_str v) as [s|]; [|eauto].
    destruct (range_captures s) as [[d1 d2]|]; [|eauto].
    destruct (parse_u64 d1) as [st|]; [|eauto].
    destruct b; simpl; [|eauto].
    replace (L <? 1) with false by (symmetry; apply Z.ltb_ge; lia). simpl. eauto.
Qed.

(** ** The prefetch queue and worker of [src/main.rs] *)

Lemma push_all_app (q ids : list string) : push_all q ids = (q ++ ids)%list.
Proof.
  revert q; induction ids as [|x ids IH]; intro q; simpl.
  - rewrite app_nil_r; reflexivity.
  - rewrite IH. unfold push_back. rewrite <- app_assoc. reflexivity.
Qed.

Lemma prefetch_iteration_queue (dir : WarmDir) (q : list string) :
  fst (prefetch_iteration dir q) = tl q.
Proof. destruct q; reflexivity. Qed.

Lemma prefetch_task_drains (dir : WarmDir) (q : list string) :
  fst (prefetch_task (List.length q) dir q) = ([], q).
Proof.
  induction q as [|x q IH]; [reflexivity|].
  cbn [List.length prefetch_task].
  pose proof (prefetch_iteration_queue dir (x :: q)) as Hq.
  destruct (prefetch_iteration dir (x :: q)) as [q1 ev]. simpl in Hq. subst q1.
  destruct (prefetch_task (List.length q) dir q) as [[q2 taken] evs].
  simpl in IH. injection IH as -> ->. reflexivity.
Qed.

(** C7.  The [POST /prefetch] the server actually serves is the one of
    [create_app] ([main] of [src/main.rs] serves [create_app]; it never
    builds the binary's queue or spawns [prefetch_task]).  An admitted
    request with body [{"track_ids": ["a", "b", "c"]}] is answered with
    the classification of the identifiers by file existence, and nothing
    is queued: the application state of [src/lib.rs] has no queue and the
    handler returns a response only. *)
Theorem C7_served_prefetch_no_queue (state : AppState) (headers : HeaderMap) (c : Claims)
  (n : Z)
  (Hauth : verify_supabase_token headers (supabase_jwt_secret state) = Ok c)
  (Hct : json_content_type headers = true) (Hn : n <= default_body_limit) :
  let ex := fun id => match music_dir state (track_file id) with
                      | Some _ => true | None => false end in
  create_app state
    (POST_prefetch headers n (Some (JObj [("track_ids", JArr [JStr "a"; JStr "b"; JStr "c"])])))
  = json_response OK
      (JObj [("valid_track_ids", JArr (map JStr (filter ex ["a"; "b"; "c"])));
             ("invalid_track_ids",
               JArr (map JStr (filter (fun id => negb (ex id)) ["a"; "b"; "c"])))]).
Proof.
  intro ex. simpl. unfold require_auth. rewrite Hauth, Hct. simpl negb. cbv iota.
  replace (default_body_limit <? n) with false by (symmetry; apply Z.ltb_ge; exact Hn).
  unfold lib_prefetch_tracks. rewrite Hauth. reflexivity.
Qed.

(** C8.  Each iteration of the worker removes the head of the queue,
    whether or not its file exists or can be read; its only effects are an
    optional [Prefetched] trace (file present and opened) and, always, a
    100 ms sleep; it has no error outcome. *)
Theorem C8_worker_iteration (dir : WarmDir) (q : list string) :
  fst (prefetch_iteration dir q) = tl q /\
  exists warmed,
    snd (prefetch_iteration dir q) = (warmed ++ [Sleep 100])%list /\
    (warmed = [] \/
     exists id f, hd_error q = Some id /\ dir (track_file id) = Some f /\
                  open_ok f = true /\ warmed = [Prefetched id]).
Proof.
  split; [apply prefetch_iteration_queue|].
  destruct q as [|id q]; simpl.
  - exists []; auto.
  - destruct (dir (track_file id)) as [f|] eqn:Hf; [destruct (open_ok f) eqn:Ho|].
    + exists [Prefetched id]; split; [reflexivity|]. right; exists id, f; auto.
    + exists []; auto.
    + exists []; auto.
Qed.

(** ** Further properties of the verifier and of the routed application *)

Lemma verify_no_bearer (headers : HeaderMap) (jwt_secret : string) :
  bearer_token headers = None ->
  verify_supabase_token headers jwt_secret
  = match hm_get "apikey" headers with
    | Some k => if visible_ascii k then
                  if negb (is_empty k) then Ok anon_claims else Err UNAUTHORIZED
                else Err UNAUTHORIZED
    | None => Err UNAUTHORIZED
    end.
Proof.
  unfold bearer_token, verify_supabase_token, header_to_str. intro Hb.
  destruct (hm_get "authorization" headers) as [v|];
    [destruct (visible_ascii v); [destruct (starts_with "Bearer " v); [discriminate|]|]|];
    destruct (hm_get "apikey" headers) as [k|]; try destruct (visible_ascii k); reflexivity.
Qed.

(** Without a Bearer header, a request whose [apikey] is missing, empty or
    not visible ASCII is refused with 401. *)
Theorem verify_rejects_without_credential (headers : HeaderMap) (jwt_secret : string)
  (Hnb : bearer_token headers = None)
  (Hkey : forall k, hm_get "apikey" headers = Some k -> visible_ascii k = false \/ k = "") :
  verify_supabase_token headers jwt_secret = Err UNAUTHORIZED.
Proof.
  rewrite (verify_no_bearer headers jwt_secret Hnb).
  destruct (hm_get "apikey" headers) as [k|]; [|reflexivity].
  destruct (Hkey k eq_refl) as [H | ->]; [rewrite H | destruct (visible_ascii "")]; reflexivity.
Qed.

(** Every protected route answers a request the verifier refuses with
    401 and the JSON body [{"error": "Authentication required"}], before
    the handler or its body extractor runs: even a prefetch without a JSON
    [Content-Type], or with a body that is not JSON, gets 401, not 415
    or 400. *)
Theorem protected_routes_reject (state : AppState) (req : Request) (e : StatusCode)
  (Hrej : verify_supabase_token
            (match req with GET_tracks _ h | POST_prefetch h _ _ | GET_me h => h end)
            (supabase_jwt_secret state) = Err e) :
  create_app state req
  = mkResponse UNAUTHORIZED [("content-type", "application/json")]
               (BodyJson (JObj [("error", JStr "Authentication required")])).
Proof. destruct req; simpl in *; unfold require_auth; rewrite Hrej; reflexivity. Qed.

(** The routed [GET /tracks/{id}] of an admitted request for an existing
    file answers 200 with the whole file and its length, whatever the
    request's other headers: a [Range] header is ignored. *)
Theorem routed_track_whole_file (state : AppState) (id : string) (headers : HeaderMap)
  (c : Claims) (file : list Byte.byte)
  (Hauth : verify_supabase_token headers (supabase_jwt_secret state) = Ok c)
  (Hfile : music_dir state (track_file id) = Some file) :
  create_app state (GET_tracks id headers)
  = mkResponse OK [("content-type", "audio/mpeg");
                   ("content-length", fmt_int (Z.of_nat (List.length file)))]
               (BodyBytes file).
Proof.
  simpl. unfold require_auth, lib_stream_track. rewrite Hauth. simpl. rewrite Hfile.
  reflexivity.
Qed.


Lemma filter_length_partition {A} (f : A -> bool) (l : list A) :
  (List.length (filter f l) + List.length (filter (fun x => negb (f x)) l))%nat
  = List.length l.
Proof. induction l as [|x l IH]; simpl; [reflexivity|]. destruct (f x); simpl; lia. Qed.

(** The prefetch handler of [src/lib.rs] splits the requested identifiers
    into those whose file exists and those whose file does not, each list
    keeping request order (each is the requested list filtered): each
    identifier lands in exactly one list, and the two lengths add up to
    the number requested. *)
Theorem lib_prefetch_partition (state : AppState) (headers : HeaderMap) (c : Claims)
  (ids : list string)
  (Hauth : verify_supabase_token headers (supabase_jwt_secret state) = Ok c) :
  let ex := fun id => match music_dir state (track_file id) with
                      | Some _ => true | None => false end in
  exists valid invalid,
    lib_prefetch_tracks state headers ids
    = Ok (json_response OK (JObj [("valid_track_ids", JArr (map JStr valid));
                                  ("invalid_track_ids", JArr (map JStr invalid))])) /\
    valid = filter ex ids /\ invalid = filter (fun id => negb (ex id)) ids /\
    (forall x, In x valid <-> In x ids /\ music_dir state (track_file x) <> None) /\
    (forall x, In x invalid <-> In x ids /\ music_dir state (track_file x) = None) /\
    (List.length valid + List.length invalid)%nat = List.length ids.
Proof.
  intro ex. unfold lib_prefetch_tracks. rewrite Hauth. simpl.
  exists (filter ex ids), (filter (fun id => negb (ex id)) ids).
  split; [reflexivity | split; [reflexivity | split; [reflexivity | split; [| split]]]].
  - intro x. rewrite filter_In. unfold ex.
    destruct (music_dir state (track_file x)); split; intros [H1 H2].
    + split; [exact H1 | discriminate].
    + split; [exact H1 | reflexivity].
    + discriminate H2.
    + exfalso; apply H2; reflexivity.
  - intro x. rewrite filter_In. unfold ex.
    destruct (music_dir state (track_file x)); simpl; split; intros [H1 H2].
    + discriminate H2.
    + discriminate H2.
    + split; [exact H1 | reflexivity].
    + split; [exact H1 | reflexivity].
  - apply filter_length_partition.
Qed.

(** [Claims] survive a round trip through their serde JSON form whenever
    [exp] fits a [usize]. *)
Theorem claims_json_roundtrip (c : Claims) (Hexp : 0 <= exp c <= usize_max) :
  deserialize_claims (serialize_claims c) = Ok c.
Proof.
  destruct c as [s e r x a i]; simpl in Hexp.
  assert (Hb : (0 <=? x) && (x <=? usize_max) = true)
    by (apply andb_true_intro; split; apply Z.leb_le; lia).
  unfold deserialize_claims, serialize_claims, de_string, de_opt_string, de_usize; simpl.
  rewrite Hb.
  destruct e, r, a, i; reflexivity.
Qed.

Lemma deserialize_claims_aud (fs : list (string * json)) (c : Claims) :
  deserialize_claims (JObj fs) = Ok c -> de_opt_string "aud" fs = Ok (aud c).
Proof.
  unfold deserialize_claims, rbind.
  destruct (de_string "sub" fs); [|discriminate].
  destruct (de_opt_string "email" fs); [|discriminate].
  destruct (de_opt_string "role" fs); [|discriminate].
  destruct (de_usize "exp" fs); [|discriminate].
  destruct (de_opt_string "aud" fs) eqn:Ha; [|discriminate].
  destruct (de_opt_string "iss" fs); [|discriminate].
  intro H; injection H as <-. reflexivity.
Qed.

Lemma aud_ok_supabase (fs : list (string * json)) (a : option string) :
  de_opt_string "aud" fs = Ok a ->
  aud_ok fs supabase_validation = match a with Some _ => false | None => true end.
Proof.
  unfold de_opt_string, aud_ok, aud_claim. simpl validate_aud. simpl aud_expected.
  destruct (jfield_all "aud" fs) as [|x [|y l]]; intro H.
  - injection H as <-. reflexivity.
  - destruct x; try discriminate H; injection H as <-; reflexivity.
  - destruct x; discriminate H.
Qed.

(** Expiry is checked with the crate's 60 s leeway, and the audience with
    none configured: a signed token whose payload deserialises into
    [Claims] [c] is accepted exactly when its [exp] is at least
    [now - 60] and it carries no [aud].  A token that expired less than a
    minute ago still passes; one with an [aud] never does. *)
Theorem decode_expiry_leeway (token jwt_secret : string) (fs : list (string * json))
  (c : Claims) (e : Z)
  (Hsig : jwt_signed_payload token jwt_secret [HS256] = Some (JObj fs))
  (Hde : deserialize_claims (JObj fs) = Ok c)
  (Hexp : jfield_all "exp" fs = [JNum e]) (He : 0 <= e <= u64_max) :
  decode_and_validate_token token jwt_secret = Ok c <-> now - 60 <= e /\ aud c = None.
Proof.
  unfold decode_and_validate_token, jwt_decode. simpl algorithms. rewrite Hsig.
  unfold validate_registered, claim_parsed. simpl required_spec_claims.
  rewrite Hexp. simpl String.eqb.
  assert (Hb : (0 <=? e) && (e <=? u64_max) = true)
    by (apply andb_true_intro; split; apply Z.leb_le; lia).
  rewrite Hb. simpl validate_exp. simpl leeway.
  rewrite (aud_ok_supabase fs (aud c) (deserialize_claims_aud fs c Hde)), Hde.
  destruct (e <? now - 60) eqn:Hlt; destruct (aud c) as [a|]; simpl.
  - apply Z.ltb_lt in Hlt. split; [discriminate | lia].
  - apply Z.ltb_lt in Hlt. split; [discriminate | lia].
  - split; [discriminate | intros [_ H]; discriminate H].
  - apply Z.ltb_ge in Hlt. split; auto.
Qed.

(** ** Further properties of [stream_track] of [src/main.rs] *)

Lemma take_digits_all (d : string) : all_digits d = true -> take_digits d = (d, "").
Proof.
  intro Hd. rewrite <- (str_append_empty_r d) at 1. rewrite (take_digits_app d "" Hd).
  simpl. rewrite str_append_empty_r. reflexivity.
Qed.

Lemma range_captures_closed (d1 d2 : string) :
  all_digits d1 = true -> is_empty d1 = false ->
  all_digits d2 = true -> is_empty d2 = false ->
  range_captures ("bytes=" ++ d1 ++ "-" ++ d2) = Some (d1, Some d2).
Proof.
  intros Hd1 He1 Hd2 He2. apply range_captures_head. unfold range_match_at.
  rewrite starts_with_app. change 6%nat with (length "bytes=").
  rewrite substring_after_prefix, (take_digits_app d1 ("-" ++ d2) Hd1).
  simpl fst; simpl snd. rewrite str_append_empty_r, He1.
  cbn [String.append]. rewrite (take_digits_all d2 Hd2), He2. reflexivity.
Qed.

Lemma digits_value_nonneg (acc : Z) (d : string) :
  0 <= acc -> all_digits d = true -> 0 <= digits_value acc d.
Proof.
  revert acc; induction d as [|c d IH]; intros acc Ha Hd;
    cbn [digits_value all_digits] in *; [lia|].
  apply andb_prop in Hd as [Hc Hd]. apply IH; [|exact Hd].
  unfold is_digit in Hc. apply andb_prop in Hc as [H0 _]. apply Nat.leb_le in H0. lia.
Qed.

Lemma parse_u64_range (d : string) (n : Z) :
  all_digits d = true -> parse_u64 d = Some n -> 0 <= n <= u64_max.
Proof.
  intros Hd. unfold parse_u64. destruct (is_empty d); [discriminate|].
  pose proof (digits_value_nonneg 0 d ltac:(lia) Hd).
  destruct (digits_value 0 d <=? u64_max) eqn:Hle; [|discriminate].
  intro H'; injection H' as <-. apply Z.leb_le in Hle. lia.
Qed.

Lemma range_header_str (d : string) :
  visible_ascii d = true -> header_to_str d = Some d.
Proof. unfold header_to_str. intros ->. reflexivity. Qed.

Lemma u64_sub_nowrap (b : build) (x y : Z) :
  0 <= y <= x -> x <= u64_max -> u64_sub b x y = Done (x - y).
Proof.
  intros H1 H2. destruct b; simpl.
  - replace (x <? y) with false by (symmetry; apply Z.ltb_ge; lia). reflexivity.
  - rewrite Z.mod_small; [reflexivity | unfold u64_max in H2; lia].
Qed.

Lemma u64_add_nowrap (b : build) (x y : Z) :
  0 <= x -> 0 <= y -> x + y <= u64_max -> u64_add b x y = Done (x + y).
Proof.
  intros H1 H2 H3. destruct b; simpl.
  - replace (u64_max <? x + y) with false by (symmetry; apply Z.ltb_ge; lia). reflexivity.
  - rewrite Z.mod_small; [reflexivity | unfold u64_max in H3; lia].
Qed.

Lemma resolve_range_ends (b : build) (d1 d2 : string) (s L : Z)
  (Hd1 : all_digits d1 = true) (Hs : parse_u64 d1 = Some s)
  (Hd2 : all_digits d2 = true) (Hne2 : is_empty d2 = false)
  (HL : 1 <= L <= u64_max) :
  resolve_range b (Some ("bytes=" ++ d1 ++ "-")) L = Done (Some (s, L - 1)) /\
  (forall e, parse_u64 d2 = Some e ->
     resolve_range b (Some ("bytes=" ++ d1 ++ "-" ++ d2)) L = Done (Some (s, e))) /\
  (parse_u64 d2 = None ->
     resolve_range b (Some ("bytes=" ++ d1 ++ "-" ++ d2)) L = Done (Some (s, L - 1))).
Proof.
  pose proof (parse_u64_nonempty d1 s Hs) as He1.
  assert (Hsub : u64_sub b L 1 = Done (L - 1)) by (apply u64_sub_nowrap; lia).
  split; [|split].
  - unfold resolve_range.
    rewrite range_header_str
      by (rewrite !visible_ascii_app, (all_digits_visible d1 Hd1); reflexivity).
    rewrite (range_captures_open_ended d1 s Hd1 Hs), Hs, Hsub. reflexivity.
  - intros e He. unfold resolve_range.
    rewrite range_header_str
      by (rewrite !visible_ascii_app, (all_digits_visible d1 Hd1), (all_digits_visible d2 Hd2);
          reflexivity).
    rewrite (range_captures_closed d1 d2 Hd1 He1 Hd2 Hne2), Hs, Hsub. simpl.
    rewrite He. reflexivity.
  - intros He. unfold resolve_range.
    rewrite range_header_str
      by (rewrite !visible_ascii_app, (all_digits_visible d1 Hd1), (all_digits_visible d2 Hd2);
          reflexivity).
    rewrite (range_captures_closed d1 d2 Hd1 He1 Hd2 Hne2), Hs, Hsub. simpl.
    rewrite He. reflexivity.
Qed.

(** How [stream_track] of [src/main.rs] resolves [bytes=<start>-<end>?]
    for a file of length [1 <= L <= u64::MAX]: an omitted end becomes
    [L - 1]; an end that parses as [u64] is taken as it is, with no clamp
    to the file length; an end too large for [u64] falls back to
    [L - 1]. *)
Theorem resolve_range_end (b : build) (d1 d2 : string) (s L : Z)
  (Hd1 : all_digits d1 = true) (Hs : parse_u64 d1 = Some s)
  (Hd2 : all_digits d2 = true) (Hne2 : is_empty d2 = false)
  (HL : 1 <= L <= u64_max) :
  resolve_range b (Some ("bytes=" ++ d1 ++ "-")) L = Done (Some (s, L - 1)) /\
  (forall e, parse_u64 d2 = Some e ->
     resolve_range b (Some ("bytes=" ++ d1 ++ "-" ++ d2)) L = Done (Some (s, e))) /\
  (parse_u64 d2 = None ->
     resolve_range b (Some ("bytes=" ++ d1 ++ "-" ++ d2)) L = Done (Some (s, L - 1))).
Proof. exact (resolve_range_ends b d1 d2 s L Hd1 Hs Hd2 Hne2 HL). Qed.

(** An admitted request for an existing file with [Range: bytes=s-e],
    [s <= e < L] and [L <= u64::MAX], gets 206 with the range's headers
    and the first [e - s + 1] bytes of the file (read from offset 0), in
    debug and release builds alike. *)
Theorem main_stream_closed_range (b : build) (track_id : string) (state : MainAppState)
  (headers : HeaderMap) (file : list Byte.byte) (c : Claims) (d1 d2 : string) (s e : Z)
  (Hfile : m_music_dir state (track_file track_id) = Some file)
  (Hauth : verify_supabase_token headers (m_supabase_jwt_secret state) = Ok c)
  (Hrange : hm_get "range" headers = Some ("bytes=" ++ d1 ++ "-" ++ d2))
  (Hd1 : all_digits d1 = true) (Hs : parse_u64 d1 = Some s)
  (Hd2 : all_digits d2 = true) (He : parse_u64 d2 = Some e)
  (Hse : s <= e) (HeL : e < Z.of_nat (List.length file))
  (HL : Z.of_nat (List.length file) <= u64_max) :
  main_stream_track b track_id state headers
  = Done (Ok (mkResponse PARTIAL_CONTENT
                [("content-type", "audio/mpeg");
                 ("content-range", "bytes " ++ fmt_int s ++ "-" ++ fmt_int e ++ "/"
                                    ++ fmt_int (Z.of_nat (List.length file)));
                 ("content-length", fmt_int (e - s + 1))]
                (BodyBytes (firstn (Z.to_nat (e - s + 1)) file)))).
Proof.
  pose proof (parse_u64_range d1 s Hd1 Hs).
  pose proof (parse_u64_nonempty d2 e He) as Hne2.
  unfold main_stream_track. rewrite Hfile, Hauth, Hrange.
  destruct (resolve_range_ends b d1 d2 s (Z.of_nat (List.length file)) Hd1 Hs Hd2 Hne2
              ltac:(lia)) as [_ [Hr _]].
  rewrite (Hr e He). simpl obind.
  rewrite (u64_sub_nowrap b e s) by lia. simpl obind.
  rewrite (u64_add_nowrap b (e - s) 1) by lia. reflexivity.
Qed.

Lemma resolve_range_closed (b : build) (d1 d2 : string) (s e L : Z)
  (Hd1 : all_digits d1 = true) (Hs : parse_u64 d1 = Some s)
  (Hd2 : all_digits d2 = true) (He : parse_u64 d2 = Some e) :
  resolve_range b (Some ("bytes=" ++ d1 ++ "-" ++ d2)) L
  = (_ <- u64_sub b L 1 ;; Done (Some (s, e))).
Proof.
  pose proof (parse_u64_nonempty d1 s Hs) as He1.
  pose proof (parse_u64_nonempty d2 e He) as He2.
  unfold resolve_range.
  rewrite range_header_str
    by (rewrite !visible_ascii_app, (all_digits_visible d1 Hd1), (all_digits_visible d2 Hd2);
        reflexivity).
  rewrite (range_captures_closed d1 d2 Hd1 He1 Hd2 He2), Hs.
  destruct (u64_sub b L 1); simpl; [rewrite He|]; reflexivity.
Qed.

(** A range [bytes=s-e] with [e < s] that parses, on a file of any length
    [L <= u64::MAX] (the empty file included): a debug build panics (on
    [file_size - 1] for the empty file, else on [end - start]); a release
    build answers 206 with the length computed modulo [2^64] (so
    [bytes=5-4] gets [Content-Length: 0] and an empty body). *)
Theorem main_stream_inverted_range (track_id : string) (state : MainAppState)
  (headers : HeaderMap) (file : list Byte.byte) (c : Claims) (d1 d2 : string) (s e : Z)
  (Hfile : m_music_dir state (track_file track_id) = Some file)
  (Hauth : verify_supabase_token headers (m_supabase_jwt_secret state) = Ok c)
  (Hrange : hm_get "range" headers = Some ("bytes=" ++ d1 ++ "-" ++ d2))
  (Hd1 : all_digits d1 = true) (Hs : parse_u64 d1 = Some s)
  (Hd2 : all_digits d2 = true) (He : parse_u64 d2 = Some e)
  (Hes : e < s)
  (HL : Z.of_nat (List.length file) <= u64_max) :
  (exists msg, main_stream_track Debug track_id state headers = Panic msg) /\
  exists r, main_stream_track Release track_id state headers = Done (Ok r) /\
    status r = PARTIAL_CONTENT /\
    hm_get "content-length" (resp_headers r) = Some (fmt_int ((e - s + 1) mod 2 ^ 64)) /\
    body r = BodyBytes (firstn (Z.to_nat ((e - s + 1) mod 2 ^ 64)) file).
Proof.
  unfold main_stream_track. rewrite Hfile, Hauth, Hrange.
  rewrite !(resolve_range_closed _ d1 d2 s e _ Hd1 Hs Hd2 He).
  split.
  - simpl. destruct (Z.of_nat (List.length file) <? 1); simpl; [eexists; reflexivity|].
    replace (e <? s) with true by (symmetry; apply Z.ltb_lt; lia). eexists; reflexivity.
  - simpl. rewrite Z.add_mod_idemp_l by lia.
    eexists; split; [reflexivity | split; [reflexivity | split; reflexivity]].
Qed.

(** [stream_track] of [src/main.rs] checks that the file exists before
    it authenticates: a missing file gets 404 whatever the headers and
    credentials, in either build. *)
Theorem main_stream_missing_first (b : build) (track_id : string) (state : MainAppState)
  (headers : HeaderMap) (Hmiss : m_music_dir state (track_file track_id) = None) :
  main_stream_track b track_id state headers = Done (Err NOT_FOUND).
Proof. unfold main_stream_track. rewrite Hmiss. reflexivity. Qed.

(** ** Further properties of the queue, the worker and [user_info] of [src/main.rs] *)

(** [n] iterations of the worker take the first [n] queued identifiers, in
    order, leave the rest queued, sleep once per iteration, and report as
    prefetched only identifiers they took. *)
Theorem prefetch_task_prefix (n : nat) (dir : WarmDir) (q : list string) :
  fst (prefetch_task n dir q) = (skipn n q, firstn n q) /\
  List.length (filter is_sleep (snd (prefetch_task n dir q))) = n /\
  (forall id, In (Prefetched id) (snd (prefetch_task n dir q)) -> In id (firstn n q)).
Proof.
  revert q; induction n as [|n IH]; intro q; [simpl; split; [reflexivity | split; [reflexivity | intros id []]]|].
  cbn [prefetch_task].
  destruct q as [|x q].
  - cbn [prefetch_iteration pop_front].
    destruct (IH []) as [H1 [H2 H3]].
    destruct (prefetch_task n dir []) as [[q2 taken] evs]. simpl in *.
    rewrite ?firstn_nil, ?skipn_nil in *.
    injection H1 as -> ->. rewrite H2. split; [reflexivity | split; [reflexivity|]].
    intros id [H | H]; [discriminate | exact (H3 id H)].
  - destruct (IH q) as [H1 [H2 H3]].
    unfold prefetch_iteration. cbn [pop_front].
    destruct (prefetch_task n dir q) as [[q2 taken] evs]. simpl in H1, H2, H3.
    injection H1 as -> ->. cbn [fst snd].
    set (w := match dir (track_file x) with
              | Some f => if open_ok f then match read_loop (reads f) with
                                            | _ => [Prefetched x] end else []
              | None => [] end).
    assert (Hw : w = [] \/ w = [Prefetched x])
      by (unfold w; destruct (dir (track_file x)); [destruct (open_ok _)|]; auto).
    split; [reflexivity | split].
    + rewrite !filter_app, !length_app. simpl. rewrite H2.
      destruct Hw as [-> | ->]; reflexivity.
    + intros id Hin. rewrite !in_app_iff in Hin. simpl.
      destruct Hin as [[Hin | [Hin | []]] | Hin].
      * destruct Hw as [-> | ->]; [destruct Hin | destruct Hin as [Hin | []]].
        injection Hin as ->. auto.
      * discriminate.
      * right. auto.
Qed.

(** [prefetch_tracks] of [src/main.rs]: a refused request leaves the
    state, queue included, unchanged; two admitted requests, each with its
    own headers, append their identifiers after those already queued, in
    call order, and change nothing else; the worker then dequeues the
    whole queue in that order. *)
Theorem main_prefetch_compose (state : MainAppState) (h1 h2 : HeaderMap) (c1 c2 : Claims)
  (ids1 ids2 : list string) (dir : WarmDir)
  (Hauth1 : verify_supabase_token h1 (m_supabase_jwt_secret state) = Ok c1)
  (Hauth2 : verify_supabase_token h2 (m_supabase_jwt_secret state) = Ok c2) :
  (forall e hs ids, verify_supabase_token hs (m_supabase_jwt_secret state) = Err e ->
     main_prefetch_tracks state hs ids = (state, Err e)) /\
  let s1 := fst (main_prefetch_tracks state h1 ids1) in
  let s2 := fst (main_prefetch_tracks s1 h2 ids2) in
  prefetch_queue s2 = (prefetch_queue state ++ ids1 ++ ids2)%list /\
  m_music_dir s2 = m_music_dir state /\ m_supabase_jwt_secret s2 = m_supabase_jwt_secret state /\
  snd (main_prefetch_tracks s1 h2 ids2) = Ok OK /\
  fst (prefetch_task (List.length (prefetch_queue s2)) dir (prefetch_queue s2))
  = ([], (prefetch_queue state ++ ids1 ++ ids2)%list).
Proof.
  split.
  - intros e hs ids H. unfold main_prefetch_tracks. rewrite H. reflexivity.
  - cbv zeta. unfold main_prefetch_tracks. rewrite Hauth1. cbn [fst m_supabase_jwt_secret].
    rewrite Hauth2. cbn [fst snd prefetch_queue m_music_dir m_supabase_jwt_secret].
    rewrite !push_all_app, <- app_assoc.
    split; [reflexivity | split; [reflexivity | split; [reflexivity | split; [reflexivity |]]]].
    apply prefetch_task_drains.
Qed.

(** A signed token that carries an audience (a string or an array of
    strings) is refused, whatever its other claims: [Validation::new]
    validates the audience and none is configured. *)
Theorem bearer_with_audience_rejected (token jwt_secret : string) (fs : list (string * json))
  (Htok : visible_ascii token = true)
  (Hsig : jwt_signed_payload token jwt_secret [HS256] = Some (JObj fs))
  (Haud : match aud_claim fs with AudSingle _ | AudMultiple _ => true | _ => false end = true) :
  verify_supabase_token [("authorization", "Bearer " ++ token)] jwt_secret = Err UNAUTHORIZED.
Proof.
  rewrite (verify_bearer token jwt_secret Htok).
  unfold decode_and_validate_token, jwt_decode. simpl algorithms. rewrite Hsig.
  assert (Hok : aud_ok fs supabase_validation = false)
    by (unfold aud_ok; simpl; destruct (aud_claim fs); try discriminate Haud; reflexivity).
  unfold validate_registered. rewrite Hok, andb_false_r. reflexivity.
Qed.

(** [GET /me] of [src/main.rs] for an [apikey]-only request reports the
    anonymous identity with its role: [{"id": "anon-user", "email": null,
    "role": "anon"}]. *)
Theorem main_user_info_anon (state : MainAppState) (headers : HeaderMap) (key : string)
  (Hnb : bearer_token headers = None)
  (Hkey : hm_get "apikey" headers = Some key)
  (Hvis : visible_ascii key = true) (Hne : key <> "") :
  main_user_info state headers
  = Ok (json_response OK (JObj [("id", JStr "anon-user"); ("email", JNull);
                                ("role", JStr "anon")])).
Proof.
  unfold main_user_info. rewrite (verify_no_bearer headers _ Hnb), Hkey, Hvis.
  destruct key; [congruence|]. reflexivity.
Qed.

(** [GET /me] of [src/main.rs] with [Authorization: Bearer <token>], for a
    token that validates into claims without a [role], reports the claims'
    subject and email and the role ["authenticated"]. *)
Theorem main_user_info_default_role (state : MainAppState) (token : string) (c : Claims)
  (Htok : visible_ascii token = true)
  (Hdec : decode_and_validate_token token (m_supabase_jwt_secret state) = Ok c)
  (Hrole : role c = None) :
  main_user_info state [("authorization", "Bearer " ++ token)]
  = Ok (json_response OK (JObj [("id", JStr (sub c)); ("email", json_opt_string (email c));
                                ("role", JStr "authenticated")])).
Proof.
  unfold main_user_info. rewrite (verify_bearer token _ Htok), Hdec. simpl.
  rewrite Hrole. reflexivity.
Qed.

(** ** [random_track] of [src/lib.rs] and [src/main.rs] *)

Lemma str_length_app (x y : string) : length (x ++ y) = (length x + length y)%nat.
Proof. induction x as [|c x IH]; simpl; [reflexivity | rewrite IH; reflexivity]. Qed.

Lemma strip_suffix_app_inv (suf s p : string) : strip_suffix suf s = Some p -> s = p ++ suf.
Proof.
  revert p; induction s as [|c s IH]; intro p; cbn [strip_suffix].
  - destruct (String.eqb "" suf) eqn:E; [|discriminate].
    apply String.eqb_eq in E. intro H; injection H as <-. exact E.
  - destruct (String.eqb (String c s) suf) eqn:E.
    + apply String.eqb_eq in E. intro H; injection H as <-. exact E.
    + destruct (strip_suffix suf s) as [p'|] eqn:Hs; [|discriminate].
      intro H; injection H as <-. rewrite (IH p' eq_refl). reflexivity.
Qed.

Lemma lib_collect_in (names : list string) (x : string) :
  In x (lib_collect_track_ids names) -> In (x ++ ".mp3") names.
Proof.
  induction names as [|n names IH]; simpl; [intros []|].
  destruct (ends_with ".mp3" n); [|intro H; right; auto].
  destruct (strip_suffix ".mp3" n) as [p|] eqn:Hs; [|intro H; right; auto].
  apply strip_suffix_app_inv in Hs. intros [<- | H]; [left; auto | right; auto].
Qed.

Lemma lib_collect_none (names : list string) :
  (forall n, In n names -> ends_with ".mp3" n = false) -> lib_collect_track_ids names = [].
Proof.
  induction names as [|n names IH]; intro H; simpl; [reflexivity|].
  rewrite (H n (or_introl eq_refl)). apply IH. intros m Hm. apply H; right; exact Hm.
Qed.

Lemma lib_collect_some (names : list string) (n : string) :
  In n names -> ends_with ".mp3" n = true -> lib_collect_track_ids names <> [].
Proof.
  induction names as [|m names IH]; simpl; [intros []|].
  intros [<- | Hin] Hn.
  - rewrite Hn. unfold ends_with in Hn.
    destruct (strip_suffix ".mp3" m); [discriminate | discriminate Hn].
  - destruct (ends_with ".mp3" m) eqn:Hm; [|exact (IH Hin Hn)].
    destruct (strip_suffix ".mp3" m); [discriminate | exact (IH Hin Hn)].
Qed.

Lemma trim_end_fuel_done (fuel : nat) (s : string) :
  (length s < fuel)%nat -> ends_with ".mp3" (trim_end_fuel fuel ".mp3" s) = false.
Proof.
  revert s; induction fuel as [|f IH]; intros s Hl; [lia|].
  cbn [trim_end_fuel].
  destruct (strip_suffix ".mp3" s) as [p|] eqn:Hs.
  - apply IH. apply strip_suffix_app_inv in Hs. subst s.
    rewrite str_length_app in Hl. simpl in Hl. lia.
  - unfold ends_with. rewrite Hs. reflexivity.
Qed.

Lemma main_collect_in (names : list string) (x : string) :
  In x (main_collect_track_ids names) ->
  exists n, In n names /\ ends_with ".mp3" n = true /\ x = trim_end_matches ".mp3" n.
Proof.
  induction names as [|n names IH]; simpl; [intros []|].
  destruct (ends_with ".mp3" n) eqn:Hn.
  - intros [<- | H]; [exists n; auto|].
    destruct (IH H) as [m [Hm Hrest]]. exists m; auto.
  - intro H. destruct (IH H) as [m [Hm Hrest]]. exists m; auto.
Qed.

Lemma main_collect_none (names : list string) :
  (forall n, In n names -> ends_with ".mp3" n = false) -> main_collect_track_ids names = [].
Proof.
  induction names as [|n names IH]; intro H; simpl; [reflexivity|].
  rewrite (H n (or_introl eq_refl)). apply IH. intros m Hm. apply H; right; exact Hm.
Qed.

Lemma main_collect_some (names : list string) (n : string) :
  In n names -> ends_with ".mp3" n = true -> main_collect_track_ids names <> [].
Proof.
  induction names as [|m names IH]; simpl; [intros []|].
  intros [<- | Hin] Hn; [rewrite Hn; discriminate|].
  destruct (ends_with ".mp3" m); [discriminate | exact (IH Hin Hn)].
Qed.

(** [random_track] of [src/lib.rs], for any chooser with the contract of
    [SliceRandom::choose]: when the listing has an [.mp3] entry the answer
    is 200 with a [track_id] whose [{track_id}.mp3] is listed; when it has
    none, or the directory cannot be read, the answer is 404 with
    [{"error": "No tracks found"}]. *)
Theorem lib_random_track_spec (listing : DirListing) (choose : list string -> option string)
  (Hc : chooser_ok choose) :
  ((exists names n, listing = Some names /\ In n names /\ ends_with ".mp3" n = true) ->
   exists x names, listing = Some names /\ In (x ++ ".mp3") names /\
     lib_random_track listing choose = json_response OK (JObj [("track_id", JStr x)])) /\
  ((forall names, listing = Some names -> forall n, In n names -> ends_with ".mp3" n = false) ->
   lib_random_track listing choose
   = json_response NOT_FOUND (JObj [("error", JStr "No tracks found")])).
Proof.
  destruct Hc as [Hnone Hin]. unfold lib_random_track. split.
  - intros [names [n [-> [Hn He]]]].
    pose proof (lib_collect_some names n Hn He) as Hne.
    destruct (choose (lib_collect_track_ids names)) as [x|] eqn:Hx.
    + exists x, names. split; [reflexivity | split; [|reflexivity]].
      apply lib_collect_in, Hin, Hx.
    + apply Hnone in Hx. contradiction.
  - intro H. replace (choose _) with (@None string); [reflexivity|].
    symmetry. apply Hnone. destruct listing as [names|]; [|reflexivity].
    apply lib_collect_none, H. reflexivity.
Qed.

(** [random_track] of [src/main.rs] answers 200 in every case, also with
    [{"error": "No tracks found"}] when no [.mp3] entry is listed or the
    directory cannot be read; a [track_id] it answers with is a listed
    [.mp3] name with every trailing [.mp3] removed, so it never itself
    ends in [.mp3]. *)
Theorem main_random_track_spec (listing : DirListing) (choose : list string -> option string)
  (Hc : chooser_ok choose) :
  status (main_random_track listing choose) = OK /\
  ((forall names, listing = Some names -> forall n, In n names -> ends_with ".mp3" n = false) ->
   main_random_track listing choose
   = json_response OK (JObj [("error", JStr "No tracks found")])) /\
  (forall x, main_random_track listing choose = json_response OK (JObj [("track_id", JStr x)]) ->
   ends_with ".mp3" x = false /\
   exists names n, listing = Some names /\ In n names /\ ends_with ".mp3" n = true /\
                   x = trim_end_matches ".mp3" n).
Proof.
  destruct Hc as [Hnone Hin]. unfold main_random_track. split; [|split].
  - destruct (choose _); reflexivity.
  - intro H. replace (choose _) with (@None string); [reflexivity|].
    symmetry. apply Hnone. destruct listing as [names|]; [|reflexivity].
    apply main_collect_none, H. reflexivity.
  - intros x H.
    destruct (choose _) as [y|] eqn:Hy; [|discriminate H].
    injection H as <-. apply Hin in Hy.
    destruct listing as [names|]; [|destruct Hy].
    destruct (main_collect_in names y Hy) as [n [Hn [He ->]]].
    split; [apply trim_end_fuel_done; lia|].
    exists names, n. auto.
Qed.

End Server.

(** ** Concrete instances of the theorems *)

(** C1: the amended statement at [apikey: k] with no Authorization header. *)
Lemma C1_witness :
  hm_get "apikey" [("apikey", "k")] = Some "k" /\ visible_ascii "k" = true /\ "k" <> "" /\
  verify_supabase_token reject_all_tokens 0 [("apikey", "k")] "secret" = Ok anon_claims.
Proof.
  split; [reflexivity | split; [reflexivity | split; [discriminate |]]].
  apply (proj1 (C1_apikey_anon_identity reject_all_tokens 0 [("apikey", "k")] "secret" "k"
                  eq_refl eq_refl ltac:(discriminate))).
  reflexivity.
Defined.

(** C1: an invalid Bearer token next to a non-empty [apikey] is refused;
    so is a non-empty [apikey] that is not visible ASCII. *)
Lemma C1_counterexample :
  verify_supabase_token reject_all_tokens 0
    [("authorization", "Bearer expired-or-forged"); ("apikey", "k")] "secret"
  = Err UNAUTHORIZED /\
  verify_supabase_token reject_all_tokens 0
    [("apikey", String (ascii_of_nat 200) EmptyString)] "secret"
  = Err UNAUTHORIZED.
Proof. split; reflexivity. Qed.



(** C4: an anonymous request for a missing track gets 404. *)
Lemma C4_witness :
  music_dir (mkAppState empty_dir "secret" []) (track_file "nonexistent") = None /\
  status (create_app reject_all_tokens 0 json_only_mime (mkAppState empty_dir "secret" [])
            (GET_tracks "nonexistent" [("apikey", "k")])) = NOT_FOUND.
Proof.
  split; [reflexivity |].
  apply (proj1 (C4_missing_track_status reject_all_tokens 0 json_only_mime (mkAppState empty_dir "secret" [])
                  "nonexistent" [("apikey", "k")] eq_refl) anon_claims).
  reflexivity.
Defined.

(** C4: the same missing track without any credential gets 401. *)
Lemma C4_counterexample :
  status (create_app reject_all_tokens 0 json_only_mime (mkAppState empty_dir "secret" [])
            (GET_tracks "nonexistent" [])) = UNAUTHORIZED.
Proof. reflexivity. Qed.

(** C2: a 20-byte track whose byte [i] is [i], requested with
    [Range: bytes=10-19]: the headers are those of the range, but the body
    is bytes 0..9, not bytes 10..19. *)
Lemma C2_body_not_seeked :
  main_stream_track reject_all_tokens 0 Debug "t" (mkMainAppState (dir_with_t file20) "secret" [])
    [("apikey", "k"); ("range", "bytes=10-19")]
  = Done (Ok (mkResponse PARTIAL_CONTENT
                [("content-type", "audio/mpeg");
                 ("content-range", "bytes 10-19/20");
                 ("content-length", "10")]
                (BodyBytes (firstn 10 file20)))) /\
  firstn 10 file20 <> firstn 10 (skipn 10 file20).
Proof. split; [vm_compute; reflexivity | vm_compute; discriminate]. Qed.

(** C5: an admitted request whose Range header does not fit the grammar. *)
Lemma C5_witness :
  main_stream_track reject_all_tokens 0 Debug "t" (mkMainAppState (dir_with_t file20) "secret" [])
    [("apikey", "k"); ("range", "bytes=abc")]
  = Done (Ok (mkResponse OK
                [("content-type", "audio/mpeg");
                 ("content-length", fmt_int (Z.of_nat (List.length file20)))]
                (BodyBytes file20))).
Proof.
  apply (C5_unparsed_range_whole reject_all_tokens 0 Debug "t"
           (mkMainAppState (dir_with_t file20) "secret" [])
           [("apikey", "k"); ("range", "bytes=abc")] file20 anon_claims);
    try reflexivity.
  right. exists "bytes=abc". split; [reflexivity | right; left; reflexivity].
Defined.

(** C5: ["bytes=0-1x"] does not match [bytes=<start>-<end>?], yet it is
    served as the range 0-1 with status 206. *)
Lemma C5_counterexample :
  exists r, main_stream_track reject_all_tokens 0 Debug "t"
              (mkMainAppState (dir_with_t file20) "secret" [])
              [("apikey", "k"); ("range", "bytes=0-1x")] = Done (Ok r)
            /\ status r = PARTIAL_CONTENT
            /\ hm_get "content-range" (resp_headers r) = Some "bytes 0-1/20".
Proof. eexists; split; [vm_compute; reflexivity | split; reflexivity]. Qed.

(** C6: a 200 of the routed endpoint and a 206 of [src/main.rs], both
    without [Accept-Ranges]. *)
Lemma C6_counterexample :
  status (create_app reject_all_tokens 0 json_only_mime (mkAppState (dir_with_t file20) "secret" [])
            (GET_tracks "t" [("apikey", "k")])) = OK /\
  hm_get "accept-ranges"
    (resp_headers (create_app reject_all_tokens 0 json_only_mime (mkAppState (dir_with_t file20) "secret" [])
                     (GET_tracks "t" [("apikey", "k")]))) = None /\
  exists r, main_stream_track reject_all_tokens 0 Debug "t"
              (mkMainAppState (dir_with_t file20) "secret" [])
              [("apikey", "k"); ("range", "bytes=10-19")] = Done (Ok r)
            /\ status r = PARTIAL_CONTENT /\ hm_get "accept-ranges" (resp_headers r) = None.
Proof.
  split; [reflexivity | split; [reflexivity |]].
  eexists; split; [vm_compute; reflexivity | split; reflexivity].
Qed.

(** C7: an admitted [POST /prefetch] of ["a"], ["b"], ["c"] on a
    directory holding none of them. *)
Lemma C7_witness :
  create_app reject_all_tokens 0 json_only_mime (mkAppState empty_dir "secret" [])
    (POST_prefetch [("apikey", "k"); ("content-type", "application/json")] 100
       (Some (JObj [("track_ids", JArr [JStr "a"; JStr "b"; JStr "c"])])))
  = json_response OK (JObj [("valid_track_ids", JArr []);
                            ("invalid_track_ids", JArr [JStr "a"; JStr "b"; JStr "c"])]).
Proof.
  exact (C7_served_prefetch_no_queue reject_all_tokens 0 json_only_mime
           (mkAppState empty_dir "secret" [])
           [("apikey", "k"); ("content-type", "application/json")] anon_claims 100
           eq_refl eq_refl ltac:(unfold default_body_limit; lia)).
Defined.

(** C9: [GET /me] with an [apikey]. *)
Lemma C9_witness :
  create_app reject_all_tokens 0 json_only_mime (mkAppState empty_dir "secret" []) (GET_me [("apikey", "k")])
  = json_response OK (JObj [("user_id", JStr "anon-user"); ("email", JNull)]).
Proof.
  apply (C9_me_response reject_all_tokens 0 json_only_mime (mkAppState empty_dir "secret" [])
           [("apikey", "k")] anon_claims).
  reflexivity.
Defined.

(** C9: that response has no [role] field ([anon_claims] has role ["anon"]). *)
Lemma C9_counterexample :
  exists fs, create_app reject_all_tokens 0 json_only_mime (mkAppState empty_dir "secret" [])
               (GET_me [("apikey", "k")]) = json_response OK (JObj fs)
             /\ jfield_all "role" fs = [].
Proof. eexists; split; reflexivity. Qed.

(** C10: [bytes=0-] on an empty file. *)
Lemma C10_witness :
  all_digits "0" = true /\ parse_u64 "0" = Some 0 /\
  resolve_range Release (Some ("bytes=" ++ "0" ++ "-")) 0 = Done (Some (0, u64_max)).
Proof.
  split; [reflexivity | split; [reflexivity |]].
  apply (C10_empty_resource_underflow "0" 0 eq_refl eq_refl).
Defined.

(** ** Concrete instances of the further properties *)

(** No Bearer header and an empty [apikey]. *)
Lemma verify_rejects_without_credential_witness :
  bearer_token [("apikey", "")] = None /\
  verify_supabase_token reject_all_tokens 0 [("apikey", "")] "secret" = Err UNAUTHORIZED.
Proof.
  split; [reflexivity |].
  apply (verify_rejects_without_credential reject_all_tokens 0 [("apikey", "")] "secret");
    [reflexivity | intros k H; injection H as <-; right; reflexivity].
Defined.

(** A credential-less prefetch whose body is not JSON gets 401. *)
Lemma protected_routes_reject_witness :
  create_app reject_all_tokens 0 json_only_mime (mkAppState empty_dir "secret" []) (POST_prefetch [] 0 None)
  = mkResponse UNAUTHORIZED [("content-type", "application/json")]
               (BodyJson (JObj [("error", JStr "Authentication required")])).
Proof.
  apply (protected_routes_reject reject_all_tokens 0 json_only_mime (mkAppState empty_dir "secret" [])
           (POST_prefetch [] 0 None) UNAUTHORIZED).
  reflexivity.
Defined.

(** [GET /tracks/t] with [Range: bytes=10-19] gets the whole 20-byte file. *)
Lemma routed_track_whole_file_witness :
  create_app reject_all_tokens 0 json_only_mime (mkAppState (dir_with_t file20) "secret" [])
    (GET_tracks "t" [("apikey", "k"); ("range", "bytes=10-19")])
  = mkResponse OK [("content-type", "audio/mpeg");
                   ("content-length", fmt_int (Z.of_nat (List.length file20)))]
               (BodyBytes file20).
Proof.
  apply (routed_track_whole_file reject_all_tokens 0 json_only_mime (mkAppState (dir_with_t file20) "secret" [])
           "t" [("apikey", "k"); ("range", "bytes=10-19")] anon_claims file20);
    reflexivity.
Defined.


(** Prefetching [t] (present) and [u] (absent). *)
Lemma lib_prefetch_partition_witness :
  exists valid invalid,
    lib_prefetch_tracks reject_all_tokens 0 (mkAppState (dir_with_t file20) "secret" [])
      [("apikey", "k")] ["t"; "u"]
    = Ok (json_response OK (JObj [("valid_track_ids", JArr (map JStr valid));
                                  ("invalid_track_ids", JArr (map JStr invalid))])) /\
    In "t" valid /\ In "u" invalid.
Proof.
  destruct (lib_prefetch_partition reject_all_tokens 0 (mkAppState (dir_with_t file20) "secret" [])
              [("apikey", "k")] anon_claims ["t"; "u"] eq_refl)
    as [valid [invalid [H [_ [_ [Hv [Hi _]]]]]]].
  exists valid, invalid. split; [exact H | split].
  - apply Hv. split; [left; reflexivity | discriminate].
  - apply Hi. split; [right; left; reflexivity | reflexivity].
Defined.

(** Claims with an email and an issuer survive the round trip. *)
Lemma claims_json_roundtrip_witness :
  deserialize_claims (serialize_claims (mkClaims "u" (Some "a@b") None 5 None (Some "iss")))
  = Ok (mkClaims "u" (Some "a@b") None 5 None (Some "iss")).
Proof.
  apply claims_json_roundtrip. simpl. unfold usize_max, u64_max. lia.
Defined.

(** A token that expired 30 s ago is still accepted. *)
Lemma decode_expiry_leeway_witness :
  decode_and_validate_token sub_token_lib 4102444830 "tok" "secret"
  = Ok (mkClaims "user-1" None None 4102444800 None None).
Proof.
  apply (proj2 (decode_expiry_leeway sub_token_lib 4102444830 "tok" "secret"
                  [("sub", JStr "user-1"); ("exp", JNum 4102444800)]
                  (mkClaims "user-1" None None 4102444800 None None) 4102444800
                  eq_refl eq_refl eq_refl ltac:(unfold u64_max; lia))).
  split; [lia | reflexivity].
Defined.

(** [bytes=10-25] on a 20-byte file: the end 25 is kept. *)
Lemma resolve_range_end_witness :
  resolve_range Debug (Some ("bytes=" ++ "10" ++ "-" ++ "25")) 20 = Done (Some (10, 25)).
Proof.
  apply (proj1 (proj2 (resolve_range_end Debug "10" "25" 10 20 eq_refl eq_refl eq_refl eq_refl
                         ltac:(unfold u64_max; lia)))).
  reflexivity.
Defined.

(** [bytes=2-5] of the 20-byte track: its first four bytes. *)
Lemma main_stream_closed_range_witness :
  exists r, main_stream_track reject_all_tokens 0 Debug "t"
              (mkMainAppState (dir_with_t file20) "secret" [])
              [("apikey", "k"); ("range", "bytes=2-5")] = Done (Ok r)
            /\ body r = BodyBytes (firstn 4 file20).
Proof.
  eexists. split.
  - apply (main_stream_closed_range reject_all_tokens 0 Debug "t"
             (mkMainAppState (dir_with_t file20) "secret" [])
             [("apikey", "k"); ("range", "bytes=2-5")] file20 anon_claims "2" "5" 2 5);
      try reflexivity; try (unfold u64_max; cbn; lia).
  - reflexivity.
Defined.

(** [bytes=5-4] on the 20-byte track: a debug build panics, a release
    build sends 0 bytes; on an empty track a debug build panics too. *)
Lemma main_stream_inverted_range_witness :
  (exists msg, main_stream_track reject_all_tokens 0 Debug "t"
                 (mkMainAppState (dir_with_t file20) "secret" [])
                 [("apikey", "k"); ("range", "bytes=5-4")] = Panic msg) /\
  (exists r, main_stream_track reject_all_tokens 0 Release "t"
               (mkMainAppState (dir_with_t file20) "secret" [])
               [("apikey", "k"); ("range", "bytes=5-4")] = Done (Ok r)
             /\ hm_get "content-length" (resp_headers r) = Some "0") /\
  (exists msg, main_stream_track reject_all_tokens 0 Debug "t"
                 (mkMainAppState (dir_with_t []) "secret" [])
                 [("apikey", "k"); ("range", "bytes=5-4")] = Panic msg).
Proof.
  destruct (main_stream_inverted_range reject_all_tokens 0 "t"
              (mkMainAppState (dir_with_t file20) "secret" [])
              [("apikey", "k"); ("range", "bytes=5-4")] file20 anon_claims "5" "4" 5 4
              eq_refl eq_refl eq_refl eq_refl eq_refl eq_refl eq_refl
              ltac:(lia) ltac:(unfold u64_max; cbn; lia))
    as [H1 [r [H2 [_ [H3 _]]]]].
  destruct (main_stream_inverted_range reject_all_tokens 0 "t"
              (mkMainAppState (dir_with_t []) "secret" [])
              [("apikey", "k"); ("range", "bytes=5-4")] [] anon_claims "5" "4" 5 4
              eq_refl eq_refl eq_refl eq_refl eq_refl eq_refl eq_refl
              ltac:(lia) ltac:(unfold u64_max; cbn; lia))
    as [H4 _].
  split; [exact H1 | split; [exists r; split; [exact H2 | rewrite H3; reflexivity] | exact H4]].
Defined.

(** A missing track without any credential: 404, not 401. *)
Lemma main_stream_missing_first_witness :
  main_stream_track reject_all_tokens 0 Debug "t" (mkMainAppState empty_dir "secret" []) []
  = Done (Err NOT_FOUND).
Proof.
  apply (main_stream_missing_first reject_all_tokens 0 Debug "t"
           (mkMainAppState empty_dir "secret" []) []).
  reflexivity.
Defined.

(** Two admitted prefetches after a queued [x], with different headers;
    the worker then dequeues [x], [a], [b], [c]. *)
Lemma main_prefetch_compose_witness :
  let s2 := fst (main_prefetch_tracks reject_all_tokens 0
                   (fst (main_prefetch_tracks reject_all_tokens 0
                           (mkMainAppState empty_dir "secret" ["x"]) [("apikey", "k")] ["a"]))
                   [("apikey", "other")] ["b"; "c"]) in
  prefetch_queue s2 = ["x"; "a"; "b"; "c"] /\
  fst (prefetch_task (List.length (prefetch_queue s2)) (fun _ => None) (prefetch_queue s2))
  = ([], ["x"; "a"; "b"; "c"]).
Proof.
  destruct (main_prefetch_compose reject_all_tokens 0 (mkMainAppState empty_dir "secret" ["x"])
              [("apikey", "k")] [("apikey", "other")] anon_claims anon_claims ["a"] ["b"; "c"]
              (fun _ => None) eq_refl eq_refl) as [_ H].
  cbv zeta in H. destruct H as [H [_ [_ [_ H']]]].
  cbv zeta. split; [exact H | exact H'].
Defined.

(** [GET /me] with [apikey: k]. *)
Lemma main_user_info_anon_witness :
  main_user_info reject_all_tokens 0 (mkMainAppState empty_dir "secret" []) [("apikey", "k")]
  = Ok (json_response OK (JObj [("id", JStr "anon-user"); ("email", JNull);
                                ("role", JStr "anon")])).
Proof.
  apply (main_user_info_anon reject_all_tokens 0 (mkMainAppState empty_dir "secret" [])
           [("apikey", "k")] "k"); try reflexivity. discriminate.
Defined.

(** [GET /me] with the signed token carrying [sub] and [exp] only. *)
Lemma main_user_info_default_role_witness :
  main_user_info sub_token_lib 1700000000 (mkMainAppState empty_dir "secret" [])
    [("authorization", "Bearer " ++ "tok")]
  = Ok (json_response OK (JObj [("id", JStr "user-1"); ("email", JNull);
                                ("role", JStr "authenticated")])).
Proof.
  exact (main_user_info_default_role sub_token_lib 1700000000
           (mkMainAppState empty_dir "secret" []) "tok"
           (mkClaims "user-1" None None 4102444800 None None) eq_refl eq_refl eq_refl).
Defined.

(** The signed token with [aud: "authenticated"]. *)
Lemma bearer_with_audience_rejected_witness :
  aud_token_lib "tok" "secret" [HS256]
  = Some (JObj [("sub", JStr "user-1"); ("exp", JNum 4102444800);
                ("aud", JStr "authenticated")]) /\
  verify_supabase_token aud_token_lib 1700000000 [("authorization", "Bearer " ++ "tok")] "secret"
  = Err UNAUTHORIZED.
Proof.
  split; [reflexivity |].
  exact (bearer_with_audience_rejected aud_token_lib 1700000000 "tok" "secret"
           [("sub", JStr "user-1"); ("exp", JNum 4102444800); ("aud", JStr "authenticated")]
           eq_refl eq_refl eq_refl).
Defined.

(** A listing with [a.mp3] and [b.txt], choosing the first candidate. *)
Lemma lib_random_track_spec_witness :
  exists x, lib_random_track (Some ["a.mp3"; "b.txt"]) choose_first
            = json_response OK (JObj [("track_id", JStr x)]) /\
            In (x ++ ".mp3") ["a.mp3"; "b.txt"].
Proof.
  assert (Hok : chooser_ok choose_first).
  { split.
    - intro l; destruct l; simpl; split; congruence.
    - intros l x H; destruct l; [discriminate | injection H as <-; left; reflexivity]. }
  destruct (lib_random_track_spec (Some ["a.mp3"; "b.txt"]) choose_first Hok) as [H _].
  destruct H as [x [names [Hl [Hin Hr]]]].
  - exists ["a.mp3"; "b.txt"], "a.mp3". split; [reflexivity | split; [left |]; reflexivity].
  - injection Hl as <-. exists x. auto.
Defined.

(** A listing without [.mp3] entries still gets 200. *)
Lemma main_random_track_spec_witness :
  main_random_track (Some ["b.txt"]) choose_first
  = json_response OK (JObj [("error", JStr "No tracks found")]).
Proof.
  assert (Hok : chooser_ok choose_first).
  { split.
    - intro l; destruct l; simpl; split; congruence.
    - intros l x H; destruct l; [discriminate | injection H as <-; left; reflexivity]. }
  apply (proj1 (proj2 (main_random_track_spec (Some ["b.txt"]) choose_first Hok))).
  intros names H n Hn. injection H as <-. destruct Hn as [<- | []]. reflexivity.
Defined.
